(** * Score fusion and classification of the media detectors

    A shallow embedding of the three lightweight detectors of the backend
    ([models/audio_detector.py], [models/image_detector.py],
    [models/deepfake_detector.py]).

    Numbers: the Python code computes in IEEE floating point; here every
    float is a real number of the Standard Library ([R]), so that [sqrt],
    [ln], [cos] and [sin] are the mathematical functions and decimal
    constants such as [0.55] are exact.  A real number is finite: the NaN
    and the infinities a raw float32 file can contain have no counterpart
    here, and a statement that depends on their absence is made for
    waveforms decoded from WAV data, whose samples are finite in the code
    as well.  Lengths, indices and integer samples are in [Z].  Values
    delivered by OpenCV or PIL (edge maps, Laplacians, detected faces) are
    inputs of the model; every formula applied to them is taken from the
    source. *)

From Stdlib Require Import Reals Lra Lia List ZArith Bool.
From Stdlib Require Import Strings.String Strings.Ascii Strings.Byte.
From Stdlib Require Import DecimalString.
Import ListNotations.
Open Scope R_scope.

(** ** Comparisons on floats *)

Definition gtb (x y : R) : bool := if Rgt_dec x y then true else false.
Definition ltb (x y : R) : bool := if Rlt_dec x y then true else false.
Definition geb (x y : R) : bool := if Rge_dec x y then true else false.
Definition eqb (x y : R) : bool := if Req_dec_T x y then true else false.

(** ** The part of numpy the detectors use *)

Module np.

Definition len {A : Type} (l : list A) : Z := Z.of_nat (List.length l).

(** [a[s:e]] for [0 <= s]. *)
Definition slice {A : Type} (a : list A) (s e : Z) : list A :=
  firstn (Z.to_nat (e - s)) (skipn (Z.to_nat s) a).

(** [a[::step]] for [1 <= step]. *)
Fixpoint stride_from {A : Type} (step skip : nat) (a : list A) : list A :=
  match a with
  | [] => []
  | x :: r =>
      match skip with
      | O => x :: stride_from step (pred step) r
      | S k => stride_from step k r
      end
  end.

Definition stride {A : Type} (a : list A) (step : Z) : list A :=
  stride_from (Z.to_nat step) 0 a.

(** [range(0, stop, step)] for [1 <= step]. *)
Definition range0 (stop step : Z) : list Z :=
  map (fun i => (Z.of_nat i * step)%Z)
      (seq 0 (Z.to_nat ((stop + step - 1) / step))).

Definition sum (l : list R) : R := fold_right Rplus 0 l.

Definition mean (l : list R) : R := sum l / IZR (len l).

Definition sq (x : R) : R := x * x.

Definition var (l : list R) : R :=
  mean (map (fun x => sq (Rabs (x - mean l))) l).

Definition std (l : list R) : R := sqrt (var l).

Fixpoint cumsum_from (acc : R) (l : list R) : list R :=
  match l with
  | [] => []
  | x :: r => (acc + x) :: cumsum_from (acc + x) r
  end.

Definition cumsum (l : list R) : list R := cumsum_from 0 l.

(** [np.diff] *)
Fixpoint diff (l : list R) : list R :=
  match l with
  | x :: ((y :: _) as r) => (y - x) :: diff r
  | _ => []
  end.

(** [np.where(cond)[0]]: the indices at which the condition holds. *)
Fixpoint where_from (i : Z) (p : R -> bool) (l : list R) : list Z :=
  match l with
  | [] => []
  | x :: r => if p x then i :: where_from (i + 1) p r
              else where_from (i + 1) p r
  end.

Definition where_ (p : R -> bool) (l : list R) : list Z := where_from 0 p l.

(** [np.max] and [np.argmax] (first index of the maximum) of a list
    given as head and tail. *)
Fixpoint max_from (m : R) (l : list R) : R :=
  match l with
  | [] => m
  | x :: r => max_from (if Rgt_dec x m then x else m) r
  end.

Fixpoint min_from (m : R) (l : list R) : R :=
  match l with
  | [] => m
  | x :: r => min_from (if Rlt_dec x m then x else m) r
  end.

Fixpoint argmax_from (m : R) (best i : Z) (l : list R) : Z :=
  match l with
  | [] => best
  | x :: r => if Rgt_dec x m then argmax_from x i (i + 1) r
              else argmax_from m best (i + 1) r
  end.

Definition max (l : list R) : R :=
  match l with [] => 0 | x :: r => max_from x r end.

Definition min (l : list R) : R :=
  match l with [] => 0 | x :: r => min_from x r end.

Definition argmax (l : list R) : Z :=
  match l with [] => 0%Z | x :: r => argmax_from x 0 1 r end.

(** [a[i]] for [0 <= i], and [a[-1]]; [None] is Python's IndexError. *)
Definition item (l : list R) (i : Z) : option R := nth_error l (Z.to_nat i).

Definition last_item (l : list R) : option R :=
  match l with [] => None | x :: r => Some (last r x) end.

End np.

(** ** Results *)

(** An explanation is either a fixed sentence or the fragments that
    qualified, each with the score it cites (the source formats the score
    as a percentage and joins the fragments with [" | "]). *)
Inductive explanation : Type :=
| Sentence (s : string)
| Fragments (l : list (string * R)).

(** The dictionary of the [except] branch of every [analyze]. *)
Record failure : Type := Failure {
  error : string;
  failure_is_deepfake : bool;
  failure_confidence : R
}.

Inductive outcome (A : Type) : Type :=
| Report (r : A)
| Failed (f : failure).
Arguments Report {A} r.
Arguments Failed {A} f.

(** [try: ... except Exception as e: return {...}] *)
Definition on_exception (msg : string) : failure :=
  {| error := msg; failure_is_deepfake := false; failure_confidence := 0.0 |}.


(** ** Exceptions inside an extractor

    Every extractor body runs under [try: ... except Exception: return c].
    A body is an [option R]: [None] is a raised exception. *)

Definition bind {A B : Type} (m : option A) (k : A -> option B) : option B :=
  match m with Some a => k a | None => None end.

Notation "x <- m ;; k" := (bind m (fun x => k))
  (at level 61, m at next level, right associativity).

Definition try_except (body : option R) (fallback : R) : R :=
  match body with Some v => v | None => fallback end.

(** ** A quotient of integers printed with two decimals

    [f"{n / d:.2f}"] for integers [0 <= n] and [0 < d].  Python divides the
    two integers into the double nearest to the quotient (ties to even) and
    the format prints the multiple of 0.01 nearest to that double (ties to
    even).  Both roundings are computed on integers. *)

(** The integer nearest to [a / b] for [0 < b], ties to even. *)
Definition round_half_even (a b : Z) : Z :=
  let q := (a / b)%Z in
  let r := (a mod b)%Z in
  if (2 * r <? b)%Z then q
  else if (b <? 2 * r)%Z then (q + 1)%Z
  else if Z.even q then q else (q + 1)%Z.

(** [n * 2^s / d] as a fraction of integers, for [s] of either sign. *)
Definition scaled (n d s : Z) : Z * Z :=
  if (0 <=? s)%Z then (n * 2 ^ s, d)%Z else (n, d * 2 ^ (- s))%Z.

(** [n / d] on Python integers: the double [m / 2^s] with a mantissa [m]
    of 53 bits (quotients in the normal range of a double, as every
    quotient of a length by a sample rate is). *)
Definition truediv (n d : Z) : Z * Z :=
  if (n =? 0)%Z then (0, 0)%Z
  else
    let s := (52 - (Z.log2 n - Z.log2 d))%Z in
    let s := if (fst (scaled n d s) / snd (scaled n d s) <? 2 ^ 52)%Z
             then (s + 1)%Z else s in
    (round_half_even (fst (scaled n d s)) (snd (scaled n d s)), s).

Definition digit (k : Z) : ascii := ascii_of_nat (48 + Z.to_nat k).

(** [f"{x:.2f}"] of a non-negative double [x = m / 2^s]. *)
Definition format_2f (x : Z * Z) : string :=
  let '(m, s) := x in
  let h := round_half_even (fst (scaled (100 * m) 1 (- s)))
                           (snd (scaled (100 * m) 1 (- s))) in
  (NilZero.string_of_uint (N.to_uint (Z.to_N (h / 100)))
   ++ "." ++ String (digit (h mod 100 / 10))
                    (String (digit (h mod 10)) ""))%string.

Arguments truediv : simpl never.
Arguments format_2f : simpl never.

(** ** [models/audio_detector.py] *)

Module AudioDeepfakeDetector.

(** [self.sample_rate] *)
Definition sample_rate : Z := 16000.

(** *** Loading *)

(** What [wave.open] gives for a file it accepts. *)
Record wave_file : Type := {
  getframerate : Z;
  getsampwidth : Z;
  readframes : list byte
}.

(** A path as the loader sees it: [wave.open] accepts the file or raises,
    and [np.fromfile(path, dtype=np.float32)] reads it or raises. *)
Record audio_path : Type := {
  wave_open : option wave_file;
  fromfile_float32 : option (list R)
}.

Definition byte_val (b : byte) : Z := Z.of_N (Byte.to_N b).

(** A little-endian two's-complement 16-bit sample. *)
Definition int16 (lo hi : byte) : Z :=
  let u := (byte_val lo + 256 * byte_val hi)%Z in
  if (u <? 32768)%Z then u else (u - 65536)%Z.

(** [np.frombuffer(bytes, dtype=np.int16)]; a buffer of odd size raises. *)
Fixpoint frombuffer_int16 (b : list byte) : option (list Z) :=
  match b with
  | [] => Some []
  | lo :: hi :: r => option_map (cons (int16 lo hi)) (frombuffer_int16 r)
  | _ :: [] => None
  end.

Definition frombuffer_uint8 (b : list byte) : list Z := map byte_val b.

(** [np.iinfo(dtype).max] *)
Definition iinfo_max_int16 : Z := 32767.
Definition iinfo_max_uint8 : Z := 255.

(** [audio_data.astype(np.float32) / np.iinfo(audio_data.dtype).max] *)
Definition normalize (dtype_max : Z) (samples : list Z) : list R :=
  map (fun s => IZR s / IZR dtype_max) samples.

(** The body of the [with wave.open(...)] block. *)
Definition read_wave (wf : wave_file) : option (list R) :=
  let sample_rate' := getframerate wf in
  audio_data <-
    (if (getsampwidth wf =? 2)%Z
     then option_map (normalize iinfo_max_int16)
                     (frombuffer_int16 (readframes wf))
     else Some (normalize iinfo_max_uint8
                          (frombuffer_uint8 (readframes wf)))) ;;
  Some (if (sample_rate' =? sample_rate)%Z then audio_data
        else np.stride audio_data (Z.max 1 (sample_rate' / sample_rate))).

Definition _load_audio (p : audio_path) : option (list R) :=
  match wf <- wave_open p ;; read_wave wf with
  | Some audio_data => Some audio_data
  | None =>
      match fromfile_float32 p with
      | Some audio_data => Some (np.slice audio_data 0 (sample_rate * 60))
      | None => None
      end
  end.

(** *** Spectral extractor *)

(** [np.fft.fft] of a real signal: real and imaginary part of bin [k]. *)
Definition fft_bin (audio : list R) (k : nat) : R * R :=
  let n := np.len audio in
  let angle (j : nat) := 2 * PI * INR k * INR j / IZR n in
  let indexed := combine (seq 0 (List.length audio)) audio in
  (np.sum (map (fun jx => snd jx * cos (angle (fst jx))) indexed),
   - np.sum (map (fun jx => snd jx * sin (angle (fst jx))) indexed)).

Definition fft (audio : list R) : list (R * R) :=
  map (fft_bin audio) (seq 0 (List.length audio)).

(** [np.abs] of a complex number *)
Definition cabs (z : R * R) : R := sqrt (fst z * fst z + snd z * snd z).

(** [np.fft.fftfreq(n, d)] *)
Definition fftfreq (n : Z) (d : R) : list R :=
  map (fun i => let i := Z.of_nat i in
                IZR (if (i <=? (n - 1) / 2)%Z then i else (i - n)%Z)
                / (d * IZR n))
      (seq 0 (Z.to_nat n)).

Definition spectral_centroid (magnitude freqs : list R) : R :=
  np.sum (map (fun mf => fst mf * snd mf) (combine magnitude freqs))
  / (np.sum magnitude + 1e-6).

(** The rolloff frequency.  On real numbers the last entry of a non-empty
    [cumsum] of magnitudes always qualifies, so the list of indices is
    empty only with the spectrum; the code also reaches [else 0] on NaN or
    infinite samples, for which every comparison is false. *)
Definition spectral_rolloff (magnitude freqs : list R) : option R :=
  let cumsum := np.cumsum magnitude in
  total <- np.last_item cumsum ;;
  match np.where_ (fun c => geb c (total * 0.85)) cumsum with
  | i :: _ => np.item freqs i
  | [] => Some 0
  end.

Definition magnitude (audio : list R) : list R :=
  let fft' := fft audio in
  np.slice (map cabs fft') 0 (np.len fft' / 2).

Definition freqs (audio : list R) : list R :=
  np.slice (fftfreq (np.len audio) (1 / IZR sample_rate))
           0 (np.len audio / 2).

Definition spectral_body (audio : list R) : option R :=
  let magnitude := magnitude audio in
  let freqs := freqs audio in
  let centroid := spectral_centroid magnitude freqs in
  rolloff <- spectral_rolloff magnitude freqs ;;
  let centroid_deviation := Rabs (centroid - 1500) / 1500.0 in
  let rolloff_deviation := Rabs (rolloff - 4000) / 4000.0 in
  Some (Rmin 1.0 (centroid_deviation * 0.5 + rolloff_deviation * 0.5)).

Definition _spectral_analysis (audio : list R) : R :=
  try_except (spectral_body audio) 0.3.

(** *** Temporal extractor *)

Definition frame_energy (audio : list R) (frame_length i : Z) : R :=
  np.sum (map np.sq (np.slice audio i (i + frame_length))).

Definition _temporal_analysis (audio : list R) : R :=
  let frame_length := (sample_rate / 100)%Z in
  let energy := map (frame_energy audio frame_length)
                    (np.range0 (np.len audio - frame_length) frame_length) in
  if (np.len energy >? 1)%Z then
    let energy_diff := map Rabs (np.diff energy) in
    let transition_variance := np.var energy_diff in
    Rmin 1.0 (transition_variance / (np.mean energy + 1e-6))
  else 0.3.

(** *** Voice-consistency extractor *)

Definition segment_features (audio : list R) (segment_length i : Z)
  : list R :=
  let start := (i * segment_length)%Z in
  let end_ := (start + segment_length)%Z in
  let segment := np.slice audio start end_ in
  [np.mean segment; np.std segment; np.mean (map np.sq segment)].

(** [np.std(rows, axis=0)] for rows of three features *)
Definition std_axis0 (rows : list (list R)) : list R :=
  map (fun c => np.std (map (fun row => nth c row 0) rows)) [0; 1; 2]%nat.

Definition consistency_of (audio : list R) : R :=
  let segment_length := (sample_rate * 2)%Z in
  let num_segments := (np.len audio / segment_length)%Z in
  let features := map (segment_features audio segment_length)
                      (np.range0 num_segments 1) in
  1.0 - np.mean (std_axis0 features).

Definition _voice_consistency_check (audio : list R) : R :=
  let segment_length := (sample_rate * 2)%Z in
  let num_segments := (np.len audio / segment_length)%Z in
  if (num_segments <? 2)%Z then 0.3
  else
    let consistency := consistency_of audio in
    if gtb consistency 0.95 then Rmin 1.0 consistency
    else Rmax 0.0 ((consistency - 0.7) * 2).

(** *** Prosody extractor *)

(** [np.correlate(a, v, mode='full')]: entry [j] is the correlation at lag
    [j - (len(v) - 1)], with zeros outside the arrays. *)
Definition correlate_at (a v : list R) (lag : Z) : R :=
  np.sum (map (fun n => let n := Z.of_nat n in
                        (if ((0 <=? n + lag)%Z && (n + lag <? np.len a)%Z)%bool
                         then nth (Z.to_nat (n + lag)) a 0 else 0)
                        * nth (Z.to_nat n) v 0)
              (seq 0 (List.length v))).

Definition correlate_full (a v : list R) : list R :=
  map (fun j => correlate_at a v (Z.of_nat j - (np.len v - 1))%Z)
      (seq 0 (Z.to_nat (np.len a + np.len v - 1))).

(** The pitch estimates one frame adds to [pitch_track]: none or one. *)
Definition frame_pitch (frame : list R) : list R :=
  let autocorr := correlate_full frame frame in
  let autocorr := skipn (Z.to_nat (np.len autocorr / 2)) autocorr in
  if (np.len autocorr >? 20)%Z then
    let peaks := skipn 20 autocorr in
    if ((np.len peaks >? 0)%Z && gtb (np.max peaks) 0)%bool then
      let peak_idx := (np.argmax peaks + 20)%Z in
      let pitch := if (peak_idx >? 0)%Z
                   then IZR sample_rate / IZR peak_idx else 0 in
      if (ltb 50 pitch && ltb pitch 500)%bool then [pitch] else []
    else []
  else [].

Definition pitch_track (audio : list R) : list R :=
  let frame_length := (sample_rate / 50)%Z in
  flat_map (fun i => frame_pitch (np.slice audio i (i + frame_length)))
           (np.range0 (np.len audio - frame_length) frame_length).

Definition _prosody_analysis (audio : list R) : R :=
  let pitch_track := pitch_track audio in
  if (np.len pitch_track <? 10)%Z then 0.3
  else
    let pitch_variance := np.var pitch_track in
    let pitch_range := np.max pitch_track - np.min pitch_track in
    let variance_score := Rmin 1.0 (Rabs (pitch_variance - 300) / 300.0) in
    let range_score := Rmin 1.0 (Rabs (pitch_range - 150) / 150.0) in
    variance_score * 0.5 + range_score * 0.5.

(** *** Classification, explanation and fusion *)

Definition _classify_audio_type (spectral consistency : R) : string :=
  if gtb consistency 0.75 then "voice_cloning"
  else if gtb spectral 0.65 then "synthesized_speech"
  else if (gtb spectral 0.45 || gtb consistency 0.45)%bool then "edited"
  else "authentic".

Definition _generate_audio_explanation
  (is_fake : bool) (spectral temporal consistency : R) : explanation :=
  if negb is_fake then
    Sentence "Audio appears authentic with natural voice characteristics and normal speech patterns."
  else
    let explanations :=
      (if gtb consistency 0.65
       then [("Unusually consistent voice patterns suggest possible voice cloning or TTS"%string, consistency)]
       else [])
      ++ (if gtb spectral 0.55
          then [("Spectral anomalies indicate potential synthetic speech generation"%string, spectral)]
          else [])
      ++ (if gtb temporal 0.55
          then [("Unnatural temporal transitions detected in audio signal"%string, temporal)]
          else []) in
    match explanations with
    | [] => Sentence "Voice manipulation or synthesis detected in audio analysis"
    | _ => Fragments explanations
    end.

Record details : Type := {
  spectral_anomaly_score : R;
  temporal_anomaly_score : R;
  voice_consistency_score : R;
  prosody_score : R;
  duration : string;
  details_sample_rate : Z
}.

Record report : Type := {
  is_deepfake : bool;
  is_voice_cloned : bool;
  confidence : R;
  manipulation_type : string;
  report_details : details;
  report_explanation : explanation
}.

(** The weighted sum of [analyze]. *)
Definition overall_score (spectral temporal voice prosody : R) : R :=
  spectral * 0.3 + temporal * 0.3 + voice * 0.2 + prosody * 0.2.

(** What [analyze] builds from the four sub-scores and the number of
    samples: the statements after the extractor calls. *)
Definition fuse (spectral_analysis temporal_analysis voice_consistency
                 prosody_analysis : R) (n_samples : Z) : report :=
  let overall := overall_score spectral_analysis temporal_analysis
                               voice_consistency prosody_analysis in
  let is_fake := gtb overall 0.55 in
  let confidence := Rmin 0.98 overall in
  {| is_deepfake := is_fake;
     is_voice_cloned := gtb voice_consistency 0.7;
     confidence := confidence;
     manipulation_type :=
       _classify_audio_type spectral_analysis voice_consistency;
     report_details :=
       {| spectral_anomaly_score := spectral_analysis;
          temporal_anomaly_score := temporal_analysis;
          voice_consistency_score := voice_consistency;
          prosody_score := prosody_analysis;
          duration :=
            (format_2f (truediv n_samples sample_rate) ++ "s")%string;
          details_sample_rate := sample_rate |};
     report_explanation :=
       _generate_audio_explanation is_fake spectral_analysis
                                   temporal_analysis voice_consistency |}.

(** The [try] block of [analyze] once the waveform is loaded. *)
Definition analyze_waveform (audio_data : list R) : report :=
  fuse (_spectral_analysis audio_data) (_temporal_analysis audio_data)
       (_voice_consistency_check audio_data) (_prosody_analysis audio_data)
       (np.len audio_data).

Definition analyze (p : audio_path) : outcome report :=
  match _load_audio p with
  | None => Failed (on_exception "Could not load audio file")
  | Some audio_data =>
      if (np.len audio_data =? 0)%Z
      then Failed (on_exception "Could not load audio file")
      else Report (analyze_waveform audio_data)
  end.

End AudioDeepfakeDetector.

(** ** [models/image_detector.py] *)

Module ImageDeepfakeDetector.

(** *** The decoded image

    The extractors read the image through OpenCV, PIL and numpy array
    operations.  The quantities those calls deliver are the fields below; a
    field that is [None] stands for a call that raised, which the
    enclosing [try] turns into the extractor's fallback. *)

Record face_box : Type := {
  box_w : Z;
  box_h : Z;
  top_edge_var : R;
  bottom_edge_var : R;
  left_edge_var : R;
  right_edge_var : R
}.

Record image_np : Type := {
  width : Z;
  height : Z;
  (** [image.format] of the converted image *)
  format : option string;
  (** [np.sum(cv2.Canny(gray, 100, 200) > 0) / edges.size] *)
  edge_density : option R;
  (** [cv2.Laplacian(gray, cv2.CV_64F).var()] *)
  laplacian_variance : option R;
  (** [np.var(image, axis=(0, 1)).mean()] *)
  color_variance : option R;
  (** means of the shifted FFT magnitude outside and inside the radius *)
  high_freq_energy : option R;
  low_freq_energy : option R;
  (** variance of [gray - GaussianBlur(gray)] *)
  noise_variance : option R;
  (** [np.corrcoef] of each sampled block with the block below it;
      [None] is a NaN or a raised exception, both skipped by the loop *)
  block_correlations : list (option R);
  (** [(h_disc + v_disc) / 2] at every inner 8x8 block corner *)
  block_discontinuities : option (list R);
  (** [face_cascade.detectMultiScale(gray, 1.1, 4)] with edge variances *)
  faces : option (list face_box)
}.

(** [Image.open(path).convert('RGB')] returns an image or raises with a
    message; [image.getexif()] of the metadata pass gives the EXIF tags or
    raises. *)
Record image_path : Type := {
  open_ : string + image_np;
  getexif : option (list (Z * string))
}.

(** *** Extractors *)

Definition _pixel_level_analysis (image : image_np) : R :=
  try_except
    (edge_density <- edge_density image ;;
     variance <- laplacian_variance image ;;
     let smoothness := 1.0 - Rmin 1.0 (variance / 1000.0) in
     color_variance <- color_variance image ;;
     let color_score := Rmin 1.0 (Rabs (color_variance - 500) / 500.0) in
     let manipulation_score :=
       smoothness * 0.4 + color_score * 0.3 + (1 - edge_density) * 0.3 in
     Some (Rmin 1.0 manipulation_score))
    0.3.

Definition _frequency_domain_analysis (image : image_np) : R :=
  try_except
    (high_freq_energy <- high_freq_energy image ;;
     low_freq_energy <- low_freq_energy image ;;
     let freq_ratio := high_freq_energy / (low_freq_energy + 1e-6) in
     Some (Rmin 1.0 (Rabs (ln (freq_ratio + 1e-6)) / 2.0)))
    0.3.

Definition _detect_jpeg_artifacts (image : image_np) : R :=
  try_except
    (let h := height image in
     let w := width image in
     if ((h <? 16)%Z || (w <? 16)%Z)%bool then Some 0.3
     else
       block_discontinuities <- block_discontinuities image ;;
       let avg_discontinuity :=
         match block_discontinuities with
         | [] => 0
         | _ => np.mean block_discontinuities
         end in
       Some (Rmin 1.0 (avg_discontinuity / 5.0)))
    0.3.

Definition _detect_ai_generated (image : image_np) : R :=
  try_except
    (noise_variance <- noise_variance image ;;
     let noise_score := Rmin 1.0 (noise_variance / 50.0) in
     let block_similarities :=
       flat_map (fun c => match c with
                          | Some correlation => [Rabs correlation]
                          | None => []
                          end)
                (block_correlations image) in
     let avg_similarity :=
       match block_similarities with
       | [] => 0.3
       | _ => np.mean block_similarities
       end in
     color_variance <- color_variance image ;;
     let color_score := Rmin 1.0 (color_variance / 1000.0) in
     let jpeg_artifacts := _detect_jpeg_artifacts image in
     let ai_score :=
       noise_score * 0.25 + avg_similarity * 0.30
       + color_score * 0.25 + jpeg_artifacts * 0.20 in
     Some (Rmin 1.0 ai_score))
    0.3.

Definition face_score (f : face_box) : list R :=
  if ((box_w f >? 20)%Z && (box_h f >? 20)%Z)%bool then
    let edge_variance :=
      np.mean [top_edge_var f; bottom_edge_var f;
               left_edge_var f; right_edge_var f] in
    [Rmax 0 (1.0 - edge_variance / 500.0)]
  else [].

Definition _face_manipulation_check (image : image_np) : R :=
  try_except
    (faces <- faces image ;;
     if (np.len faces =? 0)%Z then Some 0.2
     else
       let manipulation_scores := flat_map face_score faces in
       Some (match manipulation_scores with
             | [] => 0.3
             | _ => np.mean manipulation_scores
             end))
    0.3.

(** *** Metadata *)

Definition lower_char (c : Ascii.ascii) : Ascii.ascii :=
  let n := Ascii.nat_of_ascii c in
  if ((65 <=? n)%nat && (n <=? 90)%nat)%bool
  then Ascii.ascii_of_nat (n + 32) else c.

Fixpoint lower (s : string) : string :=
  match s with
  | EmptyString => EmptyString
  | String c r => String (lower_char c) (lower r)
  end.

(** [needle in s] *)
Fixpoint contains (needle s : string) : bool :=
  (String.prefix needle s
   || match s with
      | EmptyString => false
      | String _ r => contains needle r
      end)%bool.

Fixpoint lookup (tag : Z) (d : list (Z * string)) : option string :=
  match d with
  | [] => None
  | (k, v) :: r => if (k =? tag)%Z then Some v else lookup tag r
  end.

Record metadata : Type := {
  suspicious : bool;
  indicators : list string
}.

Definition ai_tools : list string :=
  ["dalle"; "midjourney"; "stable"; "gan"; "diffusion"]%string.

Definition software_tags : list Z := [271; 305]%Z.

Definition _metadata_analysis (p : image_path) : metadata :=
  match getexif p with
  | None => {| suspicious := false; indicators := [] |}
  | Some exif_data =>
      let minimal := (np.len exif_data <? 3)%Z in
      let hits :=
        filter (fun tag =>
                  match lookup tag exif_data with
                  | Some value =>
                      existsb (fun ai_tool => contains ai_tool (lower value))
                              ai_tools
                  | None => false
                  end)
               software_tags in
      {| suspicious := (minimal || negb (np.len hits =? 0)%Z)%bool;
         indicators :=
           (if minimal then ["minimal_metadata"%string] else [])
           ++ map (fun _ => "ai_software_detected"%string) hits |}
  end.

(** *** Classification, explanation and fusion *)

Definition _classify_image_type (pixel_score ai_score face_score : R)
  : string :=
  if gtb ai_score 0.7 then "ai_generated"
  else if gtb face_score 0.65 then "face_manipulation"
  else if gtb pixel_score 0.65 then "edited"
  else "authentic".

Definition _generate_image_explanation
  (is_fake : bool) (pixel freq ai face : R) : explanation :=
  if negb is_fake then
    Sentence "Image appears authentic with no significant manipulation or AI generation detected."
  else
    let explanations :=
      (if gtb ai 0.65
       then [("High AI-generation indicators - likely created by generative model"%string, ai)]
       else [])
      ++ (if gtb face 0.60
          then [("Face manipulation artifacts detected at facial boundaries"%string, face)]
          else [])
      ++ (if gtb pixel 0.55
          then [("Pixel-level anomalies indicate editing or manipulation"%string, pixel)]
          else [])
      ++ (if gtb freq 0.55
          then [("Frequency domain signatures consistent with synthetic content"%string, freq)]
          else []) in
    match explanations with
    | [] => Sentence "Manipulation or AI generation detected"
    | _ => Fragments explanations
    end.

Record details : Type := {
  pixel_analysis_score : R;
  frequency_analysis_score : R;
  ai_generated_score : R;
  face_manipulation_score : R;
  metadata_suspicious : bool;
  image_dimensions : Z * Z;
  file_format : string
}.

Record report : Type := {
  is_deepfake : bool;
  is_ai_generated : bool;
  confidence : R;
  manipulation_type : string;
  report_details : details;
  report_explanation : explanation
}.

Definition overall_score (pixel frequency ai face : R) : R :=
  pixel * 0.25 + frequency * 0.25 + ai * 0.30 + face * 0.20.

(** What [analyze] builds from the four sub-scores, the metadata flag and
    the image attributes. *)
Definition fuse (pixel_analysis frequency_analysis ai_generated_score
                 face_analysis : R) (metadata_analysis : metadata)
                (dimensions : Z * Z) (fmt : option string) : report :=
  let overall := overall_score pixel_analysis frequency_analysis
                               ai_generated_score face_analysis in
  let is_fake := gtb overall 0.60 in
  let confidence := Rmin 0.98 overall in
  {| is_deepfake := is_fake;
     is_ai_generated := gtb ai_generated_score 0.65;
     confidence := confidence;
     manipulation_type :=
       _classify_image_type pixel_analysis ai_generated_score face_analysis;
     report_details :=
       {| pixel_analysis_score := pixel_analysis;
          frequency_analysis_score := frequency_analysis;
          ai_generated_score := ai_generated_score;
          face_manipulation_score := face_analysis;
          metadata_suspicious := suspicious metadata_analysis;
          image_dimensions := dimensions;
          file_format := match fmt with
                         | Some f => f
                         | None => "unknown"
                         end |};
     report_explanation :=
       _generate_image_explanation is_fake pixel_analysis frequency_analysis
                                   ai_generated_score face_analysis |}.

Definition analyze (p : image_path) : outcome report :=
  match open_ p with
  | inl e => Failed (on_exception e)
  | inr image_np =>
      Report (fuse (_pixel_level_analysis image_np)
                   (_frequency_domain_analysis image_np)
                   (_detect_ai_generated image_np)
                   (_face_manipulation_check image_np)
                   (_metadata_analysis p)
                   (width image_np, height image_np)
                   (format image_np))
  end.

End ImageDeepfakeDetector.

(** ** [models/deepfake_detector.py] *)

Module DeepfakeDetector.

(** *** Frames and faces

    A face is the crop [frame[y:y+h, x:x+w]] of a detected rectangle, seen
    through the OpenCV and numpy calls of the three per-face extractors; a
    field that is [None] stands for a call that raised. *)

Record face_crop : Type := {
  (** [face.size] *)
  size : Z;
  (** [gray.shape] *)
  gray_h : Z;
  gray_w : Z;
  (** [cv2.Laplacian(gray, cv2.CV_64F).var()] *)
  laplacian_variance : option R;
  (** [np.sum(cv2.Canny(gray, 50, 150) > 0) / edges.size] *)
  edge_density : option R;
  (** [np.var] of the hue channel *)
  hue_variance : option R;
  (** [(h_diff + v_diff) / 2] at the 8- and 16-pixel block corners *)
  block_differences : option (list R);
  (** means of the shifted DFT magnitude outside and inside the mask *)
  high_freq_energy : option R;
  low_freq_energy : option R
}.

(** A grayscale array as [cv2.cvtColor] delivers it: [shape] is
    (rows, columns) and [pixels] holds the values row after row.
    [resize (w, h)] is what [cv2.resize(array, (w, h))] delivers, the
    pixels of an array of shape (h, w), or [None] when the call raises. *)
Record gray_array : Type := {
  shape : Z * Z;
  pixels : list R;
  resize : Z * Z -> option (list R)
}.

(** A decoded frame: its grayscale version and the faces
    [detectMultiScale] finds in it. *)
Record frame : Type := {
  gray : gray_array;
  detected_faces : list face_crop
}.

(** A path as [cv2.VideoCapture] sees it; [frames] are the frames
    [cap.read()] returns before it reports the end. *)
Record video_path : Type := {
  isOpened : bool;
  CAP_PROP_FRAME_COUNT : Z;
  CAP_PROP_FPS : R;
  frames : list frame
}.

(** *** Per-face extractors *)

Definition _analyze_face (face : face_crop) : R :=
  try_except
    (if (size face =? 0)%Z then Some 0.3
     else
       variance <- laplacian_variance face ;;
       let smoothness_score := 1.0 - Rmin 1.0 (variance / 500.0) in
       edge_density <- edge_density face ;;
       let edge_score := if ltb edge_density 0.15
                         then 1.0 - edge_density else edge_density in
       color_variance <- hue_variance face ;;
       let color_score := Rmin 1.0 (Rabs (color_variance - 20) / 20.0) in
       let anomaly_score :=
         smoothness_score * 0.4 + edge_score * 0.3 + color_score * 0.3 in
       Some (Rmin 1.0 anomaly_score))
    0.3.

Definition _check_blocking_artifacts (face : face_crop) : R :=
  try_except
    (block_differences <- block_differences face ;;
     Some (match block_differences with
           | [] => 0.0
           | _ => Rmin 1.0 (np.mean block_differences / 10.0)
           end))
    0.0.

Definition _detect_artifacts (face : face_crop) : R :=
  try_except
    (if (size face =? 0)%Z then Some 0.3
     else
       variance <- laplacian_variance face ;;
       let block_score :=
         if ((gray_h face >=? 16)%Z && (gray_w face >=? 16)%Z)%bool
         then _check_blocking_artifacts face else 0.0 in
       Some (Rmin 1.0 (variance / 1000.0 * 0.6 + block_score * 0.4)))
    0.3.

Definition _detect_compression_artifacts (face : face_crop) : R :=
  try_except
    (if (size face =? 0)%Z then Some 0.3
     else
       high_freq_energy <- high_freq_energy face ;;
       low_freq_energy <- low_freq_energy face ;;
       let ratio := high_freq_energy / (low_freq_energy + 1e-6) in
       Some (Rmin 1.0 (Rabs (ln (ratio + 1e-6)))))
    0.3.

(** [prev_frame.shape != curr_frame.shape] *)
Definition shape_neqb (s t : Z * Z) : bool :=
  negb ((fst s =? fst t)%Z && (snd s =? snd t)%Z).

(** [cv2.absdiff] of two arrays; arrays of different sizes raise. *)
Definition absdiff (a b : list R) : option (list R) :=
  if (np.len a =? np.len b)%Z
  then Some (map (fun pc => Rabs (fst pc - snd pc)) (combine a b))
  else None.

Definition _compute_temporal_consistency (prev_frame curr_frame : gray_array)
  : R :=
  try_except
    (curr_frame <-
       (if shape_neqb (shape prev_frame) (shape curr_frame)
        then resize curr_frame
                    (snd (shape prev_frame), fst (shape prev_frame))
        else Some (pixels curr_frame)) ;;
     diff <- absdiff (pixels prev_frame) curr_frame ;;
     let mean_diff := np.mean diff in
     let inconsistency := Rmin 1.0 (mean_diff / 50.0) in
     Some inconsistency)
    0.0.

(** *** The sampling loop *)

Record loop_state : Type := {
  frame_idx : Z;
  prev_frame_gray : option gray_array;
  frames_analyzed : Z;
  anomaly_scores : list R;
  face_inconsistencies : list Z;
  compression_artifacts : list R
}.

Definition initial_state : loop_state :=
  {| frame_idx := 0; prev_frame_gray := None; frames_analyzed := 0;
     anomaly_scores := []; face_inconsistencies := [];
     compression_artifacts := [] |}.

(** The body of [for (x, y, w, h) in faces]. *)
Definition visit_face (st : loop_state) (face : face_crop) : loop_state :=
  let score := _analyze_face face in
  let artifacts := _detect_artifacts face in
  let compression := _detect_compression_artifacts face in
  {| frame_idx := frame_idx st;
     prev_frame_gray := prev_frame_gray st;
     frames_analyzed := frames_analyzed st;
     anomaly_scores := anomaly_scores st ++ [score];
     face_inconsistencies :=
       if gtb artifacts 0.5
       then face_inconsistencies st ++ [frame_idx st]
       else face_inconsistencies st;
     compression_artifacts := compression_artifacts st ++ [compression] |}.

(** The body of [if frame_idx % sample_rate == 0]. *)
Definition visit_sampled (st : loop_state) (fr : frame) : loop_state :=
  let st := fold_left visit_face (detected_faces fr) st in
  let flagged :=
    match prev_frame_gray st with
    | Some prev =>
        gtb (_compute_temporal_consistency prev (gray fr)) 0.6
    | None => false
    end in
  {| frame_idx := frame_idx st;
     prev_frame_gray := Some (gray fr);
     frames_analyzed := frames_analyzed st + 1;
     anomaly_scores := anomaly_scores st;
     face_inconsistencies :=
       if flagged then face_inconsistencies st ++ [frame_idx st]
       else face_inconsistencies st;
     compression_artifacts := compression_artifacts st |}.

(** One iteration of [while cap.isOpened()] on a frame that was read. *)
Definition visit_frame (sample_rate : Z) (st : loop_state) (fr : frame)
  : loop_state :=
  let st := if (frame_idx st mod sample_rate =? 0)%Z
            then visit_sampled st fr else st in
  {| frame_idx := frame_idx st + 1;
     prev_frame_gray := prev_frame_gray st;
     frames_analyzed := frames_analyzed st;
     anomaly_scores := anomaly_scores st;
     face_inconsistencies := face_inconsistencies st;
     compression_artifacts := compression_artifacts st |}.

Definition run_loop (sample_rate : Z) (fs : list frame) : loop_state :=
  fold_left (visit_frame sample_rate) fs initial_state.

(** *** Classification, explanation and fusion *)

Definition _classify_manipulation (anomaly temporal compression : R)
  : string :=
  if (gtb anomaly 0.7 && gtb temporal 0.4)%bool then "face_swap"
  else if gtb temporal 0.5 then "lip_sync"
  else if gtb anomaly 0.6 then "face_reenactment"
  else if gtb compression 0.6 then "ai_generated"
  else "none".

Definition _generate_explanation
  (is_deepfake : bool) (anomaly temporal compression : R) : explanation :=
  if negb is_deepfake then
    Sentence "No significant signs of deepfake manipulation detected. The video appears authentic based on facial consistency, temporal analysis, and compression patterns."
  else
    let explanations :=
      (if gtb anomaly 0.55
       then [("Facial anomaly score indicates potential manipulation or unusual visual patterns"%string, anomaly)]
       else [])
      ++ (if gtb temporal 0.3
          then [("Temporal inconsistencies detected across video frames suggesting frame-by-frame editing"%string, temporal)]
          else [])
      ++ (if gtb compression 0.5
          then [("Compression artifacts consistent with AI-generated or heavily edited content"%string, compression)]
          else []) in
    match explanations with
    | [] => Sentence "Manipulation indicators detected in video analysis"
    | _ => Fragments explanations
    end.

Record details : Type := {
  details_frames_analyzed : Z;
  anomaly_score : R;
  temporal_inconsistency : R;
  details_compression_artifacts : R;
  details_face_inconsistencies : Z;
  (** the quotient [frame_count / fps], which the source prints with two
      decimals *)
  video_duration : R;
  fps : Z
}.

Record report : Type := {
  is_deepfake : bool;
  confidence : R;
  manipulation_type : string;
  report_details : details;
  report_explanation : explanation
}.

Definition overall_score (anomaly temporal compression : R) : R :=
  anomaly * 0.4 + temporal * 0.35 + compression * 0.25.

(** [int(x)]: truncation towards zero *)
Definition int (x : R) : Z :=
  if Rle_dec 0 x then Int_part x else (- Int_part (- x))%Z.

(** What [analyze_video] builds from the three aggregated scores and the
    counters. *)
Definition fuse (avg_anomaly temporal_inconsistency avg_compression : R)
                (frames_analyzed n_inconsistencies frame_count : Z)
                (fps : R) : report :=
  let overall := overall_score avg_anomaly temporal_inconsistency
                               avg_compression in
  let is_deepfake := gtb overall 0.55 in
  let confidence := Rmin 0.98 overall in
  {| is_deepfake := is_deepfake;
     confidence := confidence;
     manipulation_type :=
       _classify_manipulation avg_anomaly temporal_inconsistency
                              avg_compression;
     report_details :=
       {| details_frames_analyzed := frames_analyzed;
          anomaly_score := avg_anomaly;
          temporal_inconsistency := temporal_inconsistency;
          details_compression_artifacts := avg_compression;
          details_face_inconsistencies := n_inconsistencies;
          video_duration := IZR frame_count / fps;
          fps := int fps |};
     report_explanation :=
       _generate_explanation is_deepfake avg_anomaly
                             temporal_inconsistency avg_compression |}.

(** The "Calculate final scores" statements. *)
Definition final_scores (st : loop_state) : R * R * R :=
  let avg_anomaly :=
    match anomaly_scores st with
    | [] => 0.3
    | _ => np.mean (anomaly_scores st)
    end in
  let temporal_inconsistency :=
    IZR (np.len (face_inconsistencies st))
    / IZR (Z.max 1 (frames_analyzed st)) in
  let avg_compression :=
    match compression_artifacts st with
    | [] => 0.3
    | _ => np.mean (compression_artifacts st)
    end in
  (avg_anomaly, temporal_inconsistency, avg_compression).

Definition analyze_video (p : video_path) : outcome report :=
  if negb (isOpened p) then Failed (on_exception "Could not open video file")
  else
    let frame_count := CAP_PROP_FRAME_COUNT p in
    let fps := CAP_PROP_FPS p in
    if ((frame_count =? 0)%Z || eqb fps 0)%bool
    then Failed (on_exception "Invalid video file")
    else
      let sample_rate := Z.max 1 (frame_count / 30) in
      let st := run_loop sample_rate (frames p) in
      let '(avg_anomaly, temporal_inconsistency, avg_compression) :=
        final_scores st in
      Report (fuse avg_anomaly temporal_inconsistency avg_compression
                   (frames_analyzed st)
                   (np.len (face_inconsistencies st)) frame_count fps).

End DeepfakeDetector.

(** Short names for the three detectors. *)
Module Audio := AudioDeepfakeDetector.
Module Image := ImageDeepfakeDetector.
Module Video := DeepfakeDetector.

(** ** The rule table of the video classifier, as the specification words it

    "Ordered rule evaluation over specific sub-scores (first matching rule
    wins)": a list of conditions with their labels, and the label of the
    first condition that holds, else the default. *)

Definition rule : Type := (R * R * R -> bool) * string.

Fixpoint first_match (rules : list rule) (x : R * R * R) (default : string)
  : string :=
  match rules with
  | [] => default
  | (cond, label) :: rest =>
      if cond x then label else first_match rest x default
  end.

Definition video_rules : list rule :=
  [ (fun '(anomaly, temporal, _) =>
       (gtb anomaly 0.7 && gtb temporal 0.4)%bool, "face_swap"%string);
    (fun '(_, temporal, _) => gtb temporal 0.5, "lip_sync"%string);
    (fun '(anomaly, _, _) => gtb anomaly 0.6, "face_reenactment"%string);
    (fun '(_, _, compression) => gtb compression 0.6,
      "ai_generated"%string) ].

(** Rule [i] of a table holds at [x]. *)
Definition matches (rules : list rule) (i : nat) (x : R * R * R) : Prop :=
  exists cond label, nth_error rules i = Some (cond, label) /\ cond x = true.

Definition label_of (rules : list rule) (i : nat) : option string :=
  option_map snd (nth_error rules i).

(** ** The voice-consistency score, as the specification words it

    "Split into fixed-length (2 s) segments; extract per-segment summary
    statistics (mean, std, mean-square energy); consistency = 1 - mean
    cross-segment standard deviation.  Score rule: consistency > 0.95 ->
    score = consistency; otherwise score = max(0, (consistency - 0.7) x 2).
    Requires >= 2 segments, else fallback 0.3." *)

Definition whole_segments (audio : list R) : list (list R) :=
  map (fun i => np.slice audio (i * 32000) (i * 32000 + 32000))
      (np.range0 (np.len audio / 32000) 1).

Definition cross_segment_deviation (audio : list R) : R :=
  let segments := whole_segments audio in
  (np.std (map np.mean segments)
   + np.std (map np.std segments)
   + np.std (map (fun s => np.mean (map np.sq s)) segments)) / 3.

Definition spec_consistency (audio : list R) : R :=
  1 - cross_segment_deviation audio.

Definition spec_voice_score (audio : list R) : R :=
  if (np.len (whole_segments audio) <? 2)%Z then 0.3
  else if gtb (spec_consistency audio) 0.95 then spec_consistency audio
  else Rmax 0 ((spec_consistency audio - 0.7) * 2).

(** ** Measurements of an image

    What the library calls guarantee about the quantities they deliver:
    variances and boundary discontinuities are non-negative and the edge
    density is a fraction. *)

Definition nonneg_if_measured (m : option R) : Prop :=
  match m with Some v => 0 <= v | None => True end.

Definition face_box_measured (f : ImageDeepfakeDetector.face_box) : Prop :=
  0 <= ImageDeepfakeDetector.top_edge_var f
  /\ 0 <= ImageDeepfakeDetector.bottom_edge_var f
  /\ 0 <= ImageDeepfakeDetector.left_edge_var f
  /\ 0 <= ImageDeepfakeDetector.right_edge_var f.

Definition image_measured (im : ImageDeepfakeDetector.image_np) : Prop :=
  match ImageDeepfakeDetector.edge_density im with
  | Some d => 0 <= d <= 1
  | None => True
  end
  /\ nonneg_if_measured (ImageDeepfakeDetector.color_variance im)
  /\ nonneg_if_measured (ImageDeepfakeDetector.noise_variance im)
  /\ match ImageDeepfakeDetector.block_discontinuities im with
     | Some l => Forall (fun x => 0 <= x) l
     | None => True
     end
  /\ match ImageDeepfakeDetector.faces im with
     | Some l => Forall face_box_measured l
     | None => True
     end.

(** ** Sample inputs *)

(** A file that does not exist. *)
Definition missing_audio : AudioDeepfakeDetector.audio_path :=
  {| AudioDeepfakeDetector.wave_open := None;
     AudioDeepfakeDetector.fromfile_float32 := None |}.

(** The float32 reading of the 44-byte header of a 16-bit mono WAV file at
    16 kHz with [data_size] bytes of data: the words "RIFF",
    [36 + data_size], "WAVE", "fmt ", 16, (1, 1), 16000, 32000, (2, 16),
    "data" and [data_size]; a word below [2^23] is a subnormal float. *)
Definition header_float32 (data_size : Z) : list R :=
  [ 12994898 / 2 ^ 10; IZR (36 + data_size) / 2 ^ 149; 14041431 / 2 ^ 12;
    16018790 / 2 ^ 86; 16 / 2 ^ 149; 65537 / 2 ^ 149;
    16000 / 2 ^ 149; 32000 / 2 ^ 149; 1048578 / 2 ^ 149;
    16015716 * 2 ^ 44; IZR data_size / 2 ^ 149 ].

(** A 16-bit mono WAV file at 16 kHz with the three samples 0, 16384 and
    -16384.  Read as float32 its 50 bytes give the header words and the
    word 00 00 00 40, which is 2. *)
Definition short_wav : AudioDeepfakeDetector.audio_path :=
  {| AudioDeepfakeDetector.wave_open :=
       Some {| AudioDeepfakeDetector.getframerate := 16000;
               AudioDeepfakeDetector.getsampwidth := 2;
               AudioDeepfakeDetector.readframes :=
                 [x00; x00; x00; x40; x00; xc0] |};
     AudioDeepfakeDetector.fromfile_float32 :=
       Some (header_float32 6 ++ [2]) |}.

Definition short_waveform : list R :=
  AudioDeepfakeDetector.normalize 32767 [0; 16384; -16384]%Z.

(** Five seconds of silence at 16 kHz. *)
Definition silent_5s : list R := repeat 0 (Z.to_nat (5 * 16000)).

(** A 16-bit mono WAV file at 16 kHz whose only sample is the most
    negative 16-bit value, bytes 00 80. *)
Definition full_scale_wav : AudioDeepfakeDetector.audio_path :=
  {| AudioDeepfakeDetector.wave_open :=
       Some {| AudioDeepfakeDetector.getframerate := 16000;
               AudioDeepfakeDetector.getsampwidth := 2;
               AudioDeepfakeDetector.readframes := [x00; x80] |};
     AudioDeepfakeDetector.fromfile_float32 := Some (header_float32 2) |}.

Definition unreadable_image : ImageDeepfakeDetector.image_path :=
  {| ImageDeepfakeDetector.open_ := inl "cannot identify image file"%string;
     ImageDeepfakeDetector.getexif := None |}.

(** A 64x64 solid-gray image without metadata and without a face. *)
Definition gray_image_np : ImageDeepfakeDetector.image_np :=
  {| ImageDeepfakeDetector.width := 64;
     ImageDeepfakeDetector.height := 64;
     ImageDeepfakeDetector.format := None;
     ImageDeepfakeDetector.edge_density := Some 0;
     ImageDeepfakeDetector.laplacian_variance := Some 0;
     ImageDeepfakeDetector.color_variance := Some 0;
     ImageDeepfakeDetector.high_freq_energy := Some 0;
     ImageDeepfakeDetector.low_freq_energy := Some 1;
     ImageDeepfakeDetector.noise_variance := Some 0;
     ImageDeepfakeDetector.block_correlations := [];
     ImageDeepfakeDetector.block_discontinuities := Some (repeat 0 36);
     ImageDeepfakeDetector.faces := Some [] |}.

Definition gray_image : ImageDeepfakeDetector.image_path :=
  {| ImageDeepfakeDetector.open_ := inr gray_image_np;
     ImageDeepfakeDetector.getexif := Some [] |}.

Definition unopened_video : DeepfakeDetector.video_path :=
  {| DeepfakeDetector.isOpened := false;
     DeepfakeDetector.CAP_PROP_FRAME_COUNT := 0;
     DeepfakeDetector.CAP_PROP_FPS := 0;
     DeepfakeDetector.frames := [] |}.

(** A sharp, blocky face crop of 40x40 pixels: Laplacian variance 2000. *)
Definition sharp_face : DeepfakeDetector.face_crop :=
  {| DeepfakeDetector.size := 4800;
     DeepfakeDetector.gray_h := 40;
     DeepfakeDetector.gray_w := 40;
     DeepfakeDetector.laplacian_variance := Some 2000;
     DeepfakeDetector.edge_density := Some 0.2;
     DeepfakeDetector.hue_variance := Some 30;
     DeepfakeDetector.block_differences := Some [4; 6; 5; 5; 3];
     DeepfakeDetector.high_freq_energy := Some 10;
     DeepfakeDetector.low_freq_energy := Some 200 |}.

(** A grayscale array of one gray level.  Resizing it gives the same level
    at the new size; OpenCV rejects an empty target size. *)
Definition uniform_gray (level : R) (rows cols : Z)
  : DeepfakeDetector.gray_array :=
  {| DeepfakeDetector.shape := (rows, cols);
     DeepfakeDetector.pixels := repeat level (Z.to_nat (rows * cols));
     DeepfakeDetector.resize :=
       fun wh => if ((0 <? fst wh) && (0 <? snd wh))%Z%bool
                 then Some (repeat level (Z.to_nat (fst wh * snd wh)))
                 else None |}.

(** A 160x120 frame showing three such faces. *)
Definition group_frame : DeepfakeDetector.frame :=
  {| DeepfakeDetector.gray := uniform_gray 100 120 160;
     DeepfakeDetector.detected_faces :=
       [sharp_face; sharp_face; sharp_face] |}.

(** A one-frame clip. *)
Definition group_clip : DeepfakeDetector.video_path :=
  {| DeepfakeDetector.isOpened := true;
     DeepfakeDetector.CAP_PROP_FRAME_COUNT := 1;
     DeepfakeDetector.CAP_PROP_FPS := 25;
     DeepfakeDetector.frames := [group_frame] |}.

(** An 8-bit WAV file at 48 kHz with seven samples. *)
Definition wave_48k : AudioDeepfakeDetector.wave_file :=
  {| AudioDeepfakeDetector.getframerate := 48000;
     AudioDeepfakeDetector.getsampwidth := 1;
     AudioDeepfakeDetector.readframes :=
       [x00; x33; x66; x99; xcc; xff; x80] |}.

(** A 16-bit mono WAV file at 16 kHz cut short: a 44-byte header that
    announces a data chunk of 4 bytes, followed by the 3 bytes 00 40 00.
    [wave.open] accepts it and [readframes] returns the three bytes.  Read
    as float32 the 47 bytes give the eleven header words. *)
Definition truncated_wav : AudioDeepfakeDetector.audio_path :=
  {| AudioDeepfakeDetector.wave_open :=
       Some {| AudioDeepfakeDetector.getframerate := 16000;
               AudioDeepfakeDetector.getsampwidth := 2;
               AudioDeepfakeDetector.readframes := [x00; x40; x00] |};
     AudioDeepfakeDetector.fromfile_float32 := Some (header_float32 4) |}.


(** A two-frame clip of a still scene without faces. *)
Definition still_clip : DeepfakeDetector.video_path :=
  {| DeepfakeDetector.isOpened := true;
     DeepfakeDetector.CAP_PROP_FRAME_COUNT := 2;
     DeepfakeDetector.CAP_PROP_FPS := 25;
     DeepfakeDetector.frames :=
       [ {| DeepfakeDetector.gray := uniform_gray 100 120 160;
            DeepfakeDetector.detected_faces := [] |};
         {| DeepfakeDetector.gray := uniform_gray 100 120 160;
            DeepfakeDetector.detected_faces := [] |} ] |}.

(** A capture that opens and announces 30 frames at 25 fps but delivers
    none. *)
Definition empty_capture : DeepfakeDetector.video_path :=
  {| DeepfakeDetector.isOpened := true;
     DeepfakeDetector.CAP_PROP_FRAME_COUNT := 30;
     DeepfakeDetector.CAP_PROP_FPS := 25;
     DeepfakeDetector.frames := [] |}.

(** * Properties *)

(** ** Comparisons *)

Lemma gtb_true (x y : R) : gtb x y = true <-> x > y.
Proof. unfold gtb. destruct (Rgt_dec x y); split; intros; congruence || lra. Qed.

Lemma gtb_false (x y : R) : gtb x y = false <-> x <= y.
Proof. unfold gtb. destruct (Rgt_dec x y); split; intros; congruence || lra. Qed.

Lemma ltb_true (x y : R) : ltb x y = true <-> x < y.
Proof. unfold ltb. destruct (Rlt_dec x y); split; intros; congruence || lra. Qed.

Lemma ltb_false (x y : R) : ltb x y = false <-> y <= x.
Proof. unfold ltb. destruct (Rlt_dec x y); split; intros; congruence || lra. Qed.

Lemma geb_true (x y : R) : geb x y = true <-> x >= y.
Proof. unfold geb. destruct (Rge_dec x y); split; intros; congruence || lra. Qed.

Lemma eqb_true (x y : R) : eqb x y = true <-> x = y.
Proof. unfold eqb. destruct (Req_dec_T x y); split; intros; congruence. Qed.

(** Decide a float comparison between two numerals or simple terms. *)
Ltac decide_cmp :=
  repeat match goal with
  | |- context [gtb ?x ?y] =>
      let H := fresh in
      first [ assert (H : gtb x y = true) by (apply gtb_true; lra)
            | assert (H : gtb x y = false) by (apply gtb_false; lra) ];
      rewrite H; clear H
  | |- context [ltb ?x ?y] =>
      let H := fresh in
      first [ assert (H : ltb x y = true) by (apply ltb_true; lra)
            | assert (H : ltb x y = false) by (apply ltb_false; lra) ];
      rewrite H; clear H
  end.

(** Evaluate a [min] or [max] whose arguments [lra] can compare. *)
Ltac eval_min :=
  repeat match goal with
  | |- context [Rmin ?a ?b] =>
      first [ rewrite (Rmin_left a b) by lra
            | rewrite (Rmin_right a b) by lra ]
  | |- context [Rmax ?a ?b] =>
      first [ rewrite (Rmax_left a b) by lra
            | rewrite (Rmax_right a b) by lra ]
  end.

(** ** Sums, means and deviations *)

Lemma len_nonneg {A : Type} (l : list A) : (0 <= np.len l)%Z.
Proof. unfold np.len. lia. Qed.

Lemma len_cons {A : Type} (x : A) (l : list A) :
  np.len (x :: l) = (np.len l + 1)%Z.
Proof. unfold np.len. simpl List.length. lia. Qed.

Lemma len_pos {A : Type} (x : A) (l : list A) : 0 < IZR (np.len (x :: l)).
Proof.
  apply IZR_lt. rewrite len_cons. pose proof (len_nonneg l). lia.
Qed.

Lemma sum_nonneg (l : list R) : Forall (fun x => 0 <= x) l -> 0 <= np.sum l.
Proof.
  induction 1 as [|x l Hx _ IH]; simpl.
  - lra.
  - lra.
Qed.

Lemma sum_le_len (l : list R) :
  Forall (fun x => x <= 1) l -> np.sum l <= IZR (np.len l).
Proof.
  induction 1 as [|x l Hx _ IH].
  - unfold np.len. simpl. lra.
  - rewrite len_cons, plus_IZR. simpl. lra.
Qed.

Lemma mean_nonneg (l : list R) : Forall (fun x => 0 <= x) l -> 0 <= np.mean l.
Proof.
  intros H. unfold np.mean. destruct l as [|x l].
  - simpl. unfold Rdiv. rewrite Rmult_0_l. lra.
  - apply Rmult_le_pos.
    + now apply sum_nonneg.
    + left. apply Rinv_0_lt_compat, len_pos.
Qed.

Lemma mean_le_1 (l : list R) : Forall (fun x => x <= 1) l -> np.mean l <= 1.
Proof.
  intros H. unfold np.mean. destruct l as [|x l].
  - simpl. unfold Rdiv. rewrite Rmult_0_l. lra.
  - pose proof (len_pos x l) as Hp. pose proof (sum_le_len _ H) as Hs.
    apply Rmult_le_reg_r with (r := IZR (np.len (x :: l))); [exact Hp|].
    unfold Rdiv. rewrite Rmult_assoc, Rinv_l by lra. lra.
Qed.

Lemma sq_nonneg (x : R) : 0 <= np.sq x.
Proof. unfold np.sq. nra. Qed.

Lemma var_nonneg (l : list R) : 0 <= np.var l.
Proof.
  unfold np.var. apply mean_nonneg. apply Forall_map, Forall_forall.
  intros x _. apply sq_nonneg.
Qed.

Lemma std_nonneg (l : list R) : 0 <= np.std l.
Proof. unfold np.std. apply sqrt_pos. Qed.

Lemma Rmin_unit (x : R) : 0 <= x -> 0 <= Rmin 1.0 x <= 1.
Proof. intros H. unfold Rmin. destruct (Rle_dec 1.0 x); lra. Qed.

(** ** The verdict *)

(** C2: the boolean verdict is a strict comparison with the threshold of
    the modality (audio 0.55, image 0.60, video 0.55).  For every
    breakdown whose overall score equals the threshold the verdict is
    negative, and for every breakdown whose overall score is above it the
    verdict is positive. *)
Theorem verdict_threshold_is_strict :
  (forall spectral temporal voice prosody n,
      let r := Audio.fuse spectral temporal voice prosody n in
      let overall := Audio.overall_score spectral temporal voice prosody in
      (overall = 0.55 -> Audio.is_deepfake r = false)
      /\ (overall > 0.55 -> Audio.is_deepfake r = true))
  /\ (forall pixel frequency ai face meta dims fmt,
         let r := Image.fuse pixel frequency ai face meta dims fmt in
         let overall := Image.overall_score pixel frequency ai face in
         (overall = 0.60 -> Image.is_deepfake r = false)
         /\ (overall > 0.60 -> Image.is_deepfake r = true))
  /\ (forall anomaly temporal compression analyzed flagged count fps,
         let r := Video.fuse anomaly temporal compression
                             analyzed flagged count fps in
         let overall := Video.overall_score anomaly temporal compression in
         (overall = 0.55 -> Video.is_deepfake r = false)
         /\ (overall > 0.55 -> Video.is_deepfake r = true)).
Proof.
  repeat split; intros H; simpl;
    (apply gtb_false; lra) || (apply gtb_true; lra).
Qed.

Lemma verdict_threshold_is_strict_witness :
  Audio.is_deepfake (Audio.fuse 0.55 0.55 0.55 0.55 16000) = false
  /\ Audio.is_deepfake (Audio.fuse 0.56 0.55 0.55 0.55 16000) = true
  /\ Image.is_deepfake
       (Image.fuse 0.6 0.6 0.6 0.6
                   {| Image.suspicious := true; Image.indicators := [] |}
                   (64, 64)%Z None) = false
  /\ Video.is_deepfake (Video.fuse 0.55 0.55 0.55 30 10 900 25) = false
  /\ Video.is_deepfake (Video.fuse 0.6 0.55 0.55 30 10 900 25) = true.
Proof.
  destruct verdict_threshold_is_strict as [Ha [Hi Hv]].
  split; [|split; [|split; [|split]]].
  - apply (proj1 (Ha 0.55 0.55 0.55 0.55 16000%Z)).
    unfold Audio.overall_score. lra.
  - apply (proj2 (Ha 0.56 0.55 0.55 0.55 16000%Z)).
    unfold Audio.overall_score. lra.
  - apply (proj1 (Hi 0.6 0.6 0.6 0.6 _ _ _)).
    unfold Image.overall_score. lra.
  - apply (proj1 (Hv 0.55 0.55 0.55 30%Z 10%Z 900%Z 25)).
    unfold Video.overall_score. lra.
  - apply (proj2 (Hv 0.6 0.55 0.55 30%Z 10%Z 900%Z 25)).
    unfold Video.overall_score. lra.
Defined.

(** Every report of [analyze] is the fusion of its own sub-scores. *)
Lemma audio_report_fused p r :
  Audio.analyze p = Report r ->
  exists audio_data,
    Audio._load_audio p = Some audio_data
    /\ r = Audio.analyze_waveform audio_data.
Proof.
  unfold Audio.analyze. destruct (Audio._load_audio p) as [a|]; [|discriminate].
  destruct (np.len a =? 0)%Z; [discriminate|].
  intros H. injection H as <-. now exists a.
Qed.

Lemma image_report_fused p r :
  Image.analyze p = Report r ->
  exists image_np,
    Image.open_ p = inr image_np
    /\ r = Image.fuse (Image._pixel_level_analysis image_np)
                      (Image._frequency_domain_analysis image_np)
                      (Image._detect_ai_generated image_np)
                      (Image._face_manipulation_check image_np)
                      (Image._metadata_analysis p)
                      (Image.width image_np, Image.height image_np)
                      (Image.format image_np).
Proof.
  unfold Image.analyze. destruct (Image.open_ p) as [e|im]; [discriminate|].
  intros H. injection H as <-. now exists im.
Qed.

Lemma video_report_fused p r :
  Video.analyze_video p = Report r ->
  let st := Video.run_loop (Z.max 1 (Video.CAP_PROP_FRAME_COUNT p / 30))
                           (Video.frames p) in
  r = Video.fuse (fst (fst (Video.final_scores st)))
                 (snd (fst (Video.final_scores st)))
                 (snd (Video.final_scores st))
                 (Video.frames_analyzed st)
                 (np.len (Video.face_inconsistencies st))
                 (Video.CAP_PROP_FRAME_COUNT p) (Video.CAP_PROP_FPS p).
Proof.
  unfold Video.analyze_video.
  destruct (negb (Video.isOpened p)); [discriminate|].
  destruct ((Video.CAP_PROP_FRAME_COUNT p =? 0)%Z
            || eqb (Video.CAP_PROP_FPS p) 0)%bool; [discriminate|].
  destruct (Video.final_scores _) as [[a t] c] eqn:E.
  intros H. injection H as <-. reflexivity.
Qed.

(** C3: in every modality the reported confidence is [min(0.98, overall)],
    where the overall score is the weighted sum of the sub-scores.  This
    holds of the fusion for whatever sub-scores it is given, and therefore
    of every report of [analyze], with the scores the extractors return on
    the decoded input: the confidence is a function of the overall score
    alone. *)
Theorem confidence_is_capped_overall_score :
  (forall spectral temporal voice prosody n,
      Audio.confidence (Audio.fuse spectral temporal voice prosody n)
      = Rmin 0.98
          (spectral * 0.3 + temporal * 0.3 + voice * 0.2 + prosody * 0.2))
  /\ (forall pixel frequency ai face metadata dimensions fmt,
         Image.confidence
           (Image.fuse pixel frequency ai face metadata dimensions fmt)
         = Rmin 0.98
             (pixel * 0.25 + frequency * 0.25 + ai * 0.30 + face * 0.20))
  /\ (forall anomaly temporal compression analyzed flagged frame_count fps,
         Video.confidence
           (Video.fuse anomaly temporal compression analyzed flagged
                       frame_count fps)
         = Rmin 0.98 (anomaly * 0.4 + temporal * 0.35 + compression * 0.25))
  /\ (forall p r,
         Audio.analyze p = Report r ->
         exists audio_data,
           Audio._load_audio p = Some audio_data
           /\ Audio.confidence r
              = Rmin 0.98
                  (Audio._spectral_analysis audio_data * 0.3
                   + Audio._temporal_analysis audio_data * 0.3
                   + Audio._voice_consistency_check audio_data * 0.2
                   + Audio._prosody_analysis audio_data * 0.2))
  /\ (forall p r,
         Image.analyze p = Report r ->
         exists image_np,
           Image.open_ p = inr image_np
           /\ Image.confidence r
              = Rmin 0.98
                  (Image._pixel_level_analysis image_np * 0.25
                   + Image._frequency_domain_analysis image_np * 0.25
                   + Image._detect_ai_generated image_np * 0.30
                   + Image._face_manipulation_check image_np * 0.20))
  /\ (forall p r,
         Video.analyze_video p = Report r ->
         let st := Video.run_loop
                     (Z.max 1 (Video.CAP_PROP_FRAME_COUNT p / 30))
                     (Video.frames p) in
         Video.confidence r
         = Rmin 0.98
             (fst (fst (Video.final_scores st)) * 0.4
              + snd (fst (Video.final_scores st)) * 0.35
              + snd (Video.final_scores st) * 0.25)).
Proof.
  split; [reflexivity|]. split; [reflexivity|]. split; [reflexivity|].
  split; [|split]; intros p r H.
  - apply audio_report_fused in H as [a [Ha ->]]. now exists a.
  - apply image_report_fused in H as [im [Hi ->]]. now exists im.
  - apply video_report_fused in H. subst r. reflexivity.
Qed.

Lemma confidence_is_capped_overall_score_witness :
  (Audio.analyze short_wav = Report (Audio.analyze_waveform short_waveform)
   /\ exists audio_data,
        Audio._load_audio short_wav = Some audio_data
        /\ Audio.confidence (Audio.analyze_waveform short_waveform)
           = Rmin 0.98
               (Audio._spectral_analysis audio_data * 0.3
                + Audio._temporal_analysis audio_data * 0.3
                + Audio._voice_consistency_check audio_data * 0.2
                + Audio._prosody_analysis audio_data * 0.2))
  /\ (exists r image_np,
        Image.analyze gray_image = Report r
        /\ Image.open_ gray_image = inr image_np
        /\ Image.confidence r
           = Rmin 0.98
               (Image._pixel_level_analysis image_np * 0.25
                + Image._frequency_domain_analysis image_np * 0.25
                + Image._detect_ai_generated image_np * 0.30
                + Image._face_manipulation_check image_np * 0.20))
  /\ (exists r,
        Video.analyze_video group_clip = Report r
        /\ Video.confidence r
           = Rmin 0.98
               (fst (fst (Video.final_scores
                            (Video.run_loop 1 (Video.frames group_clip))))
                * 0.4
                + snd (fst (Video.final_scores
                              (Video.run_loop 1 (Video.frames group_clip))))
                  * 0.35
                + snd (Video.final_scores
                         (Video.run_loop 1 (Video.frames group_clip)))
                  * 0.25)).
Proof.
  destruct confidence_is_capped_overall_score
    as (_ & _ & _ & Ha & Hi & Hv).
  assert (Es : Audio.analyze short_wav
               = Report (Audio.analyze_waveform short_waveform))
    by reflexivity.
  split; [split; [exact Es | exact (Ha _ _ Es)] | split].
  - assert (Eg : Image.analyze gray_image
                 = Report (Image.fuse
                             (Image._pixel_level_analysis gray_image_np)
                             (Image._frequency_domain_analysis gray_image_np)
                             (Image._detect_ai_generated gray_image_np)
                             (Image._face_manipulation_check gray_image_np)
                             (Image._metadata_analysis gray_image)
                             (Image.width gray_image_np,
                              Image.height gray_image_np)
                             (Image.format gray_image_np)))
      by reflexivity.
    destruct (Hi _ _ Eg) as (im & Him & Hc).
    eexists. exists im. split; [exact Eg|]. split; assumption.
  - assert (Eo : eqb 25 0 = false).
    { unfold eqb. destruct (Req_dec_T 25 0); [lra | reflexivity]. }
    assert (Er : exists r, Video.analyze_video group_clip = Report r).
    { unfold Video.analyze_video. simpl negb. cbv iota.
      simpl Video.CAP_PROP_FPS. rewrite Eo. simpl orb. cbv iota.
      destruct (Video.final_scores _) as [[a t] c]. eexists. reflexivity. }
    destruct Er as [r Hr].
    exists r. split; [exact Hr|]. exact (Hv group_clip r Hr).
Defined.

(** ** Manipulation type of a video *)

Lemma matches_cons_S cond label rest i x :
  matches ((cond, label) :: rest) (S i) x <-> matches rest i x.
Proof. unfold matches. simpl. tauto. Qed.

Lemma matches_cons_O cond label rest x :
  matches ((cond, label) :: rest) 0 x <-> cond x = true.
Proof.
  unfold matches. simpl. split.
  - intros (c & l & E & H). now injection E as -> ->.
  - intros H. now exists cond, label.
Qed.

(** The label returned is the label of the first rule that holds. *)
Lemma first_match_least (rules : list rule) x default :
  forall i, matches rules i x ->
  exists k, (k <= i)%nat
            /\ matches rules k x
            /\ (forall k', (k' < k)%nat -> ~ matches rules k' x)
            /\ label_of rules k = Some (first_match rules x default).
Proof.
  induction rules as [|[cond label] rest IH]; intros i Hi.
  - destruct Hi as (c & l & E & _). destruct i; discriminate.
  - simpl first_match. destruct (cond x) eqn:Ec.
    + exists 0%nat. repeat split.
      * lia.
      * now apply matches_cons_O.
      * intros k' Hk'. lia.
    + destruct i as [|i].
      * apply matches_cons_O in Hi. congruence.
      * apply matches_cons_S in Hi. destruct (IH i Hi) as (k & Hk & Hm & Hl & He).
        exists (S k). repeat split.
        -- lia.
        -- now apply matches_cons_S.
        -- intros [|k'] Hk' Hc.
           ++ apply matches_cons_O in Hc. congruence.
           ++ apply matches_cons_S in Hc. apply (Hl k'); [lia | exact Hc].
        -- exact He.
Qed.

Lemma video_labels_distinct i j l :
  label_of video_rules i = Some l -> label_of video_rules j = Some l -> i = j.
Proof.
  unfold label_of, video_rules.
  destruct i as [|[|[|[|i]]]]; destruct j as [|[|[|[|j]]]]; simpl;
    intros Hi Hj; try reflexivity; try congruence;
    try (destruct i; discriminate); try (destruct j; discriminate).
Qed.

(** C4: the video classifier is the ordered rule table (face_swap,
    lip_sync, face_reenactment, ai_generated, else none) with the first
    matching rule winning.  Whenever two rules [i < j] both hold, the label
    returned is that of the earliest rule that holds, which stands at or
    before [i]: it is rule [i]'s label when no rule before [i] holds, and
    it is never rule [j]'s. *)
Theorem video_classifier_first_rule_wins (anomaly temporal compression : R) :
  let x := (anomaly, temporal, compression) in
  let result := Video._classify_manipulation anomaly temporal compression in
  result = first_match video_rules x "none"
  /\ forall i j, (i < j)%nat ->
       matches video_rules i x -> matches video_rules j x ->
       (exists k, (k <= i)%nat
                  /\ matches video_rules k x
                  /\ (forall k', (k' < k)%nat -> ~ matches video_rules k' x)
                  /\ label_of video_rules k = Some result)
       /\ ((forall k', (k' < i)%nat -> ~ matches video_rules k' x) ->
           label_of video_rules i = Some result)
       /\ label_of video_rules j <> Some result.
Proof.
  intros x result.
  assert (E : result = first_match video_rules x "none").
  { unfold result, Video._classify_manipulation, video_rules, x. simpl.
    destruct (gtb anomaly 0.7 && gtb temporal 0.4)%bool; [reflexivity|].
    destruct (gtb temporal 0.5); [reflexivity|].
    destruct (gtb anomaly 0.6); [reflexivity|].
    destruct (gtb compression 0.6); reflexivity. }
  split; [exact E|].
  intros i j Hij Hi Hj.
  destruct (first_match_least video_rules x "none" i Hi)
    as (k & Hk & Hm & Hl & He).
  rewrite <- E in He.
  split; [|split].
  - exists k. auto.
  - intros Hnone.
    assert (k = i) as ->; [|exact He].
    destruct (Nat.eq_dec k i) as [|Hne]; [assumption|].
    exfalso. apply (Hnone k); [lia | exact Hm].
  - intros Hjl. pose proof (video_labels_distinct _ _ _ He Hjl). lia.
Qed.

Lemma video_classifier_first_rule_wins_witness :
  label_of video_rules 1 = Some (Video._classify_manipulation 0.65 0.6 0.7)
  /\ label_of video_rules 2 <> Some (Video._classify_manipulation 0.65 0.6 0.7).
Proof.
  assert (H0 : ~ matches video_rules 0 (0.65, 0.6, 0.7)).
  { intros (c & l & E & H). injection E as <- _. simpl in H.
    apply andb_prop in H as [H _]. apply gtb_true in H. lra. }
  assert (H1 : matches video_rules 1 (0.65, 0.6, 0.7)).
  { eexists _, _. split; [reflexivity|]. apply gtb_true. lra. }
  assert (H2 : matches video_rules 2 (0.65, 0.6, 0.7)).
  { eexists _, _. split; [reflexivity|]. apply gtb_true. lra. }
  destruct (video_classifier_first_rule_wins 0.65 0.6 0.7) as [_ H].
  destruct (H 1%nat 2%nat ltac:(lia) H1 H2) as (_ & Hfirst & Hnot).
  split; [|exact Hnot].
  apply Hfirst. intros k' Hk'. assert (k' = 0)%nat as -> by lia. exact H0.
Defined.

(** ** A label without a positive verdict *)

(** C10: the audio manipulation type is a function of the spectral and the
    voice-consistency sub-scores alone, whatever the verdict; the breakdown
    with spectral score 0.5 and the other sub-scores 0 has a negative
    verdict and the label "edited", which is not "authentic". *)
Theorem audio_label_ignores_verdict :
  (forall spectral temporal voice prosody n,
      Audio.manipulation_type (Audio.fuse spectral temporal voice prosody n)
      = Audio._classify_audio_type spectral voice)
  /\ exists spectral temporal voice prosody, forall n,
       let r := Audio.fuse spectral temporal voice prosody n in
       Audio.is_deepfake r = false
       /\ Audio.manipulation_type r = "edited"%string
       /\ Audio.manipulation_type r <> "authentic"%string.
Proof.
  split; [reflexivity|].
  exists 0.5, 0, 0, 0. intros n r.
  assert (Ev : Audio.is_deepfake r = false).
  { simpl. apply gtb_false. unfold Audio.overall_score. lra. }
  assert (Et : Audio.manipulation_type r = "edited"%string).
  { simpl. unfold Audio._classify_audio_type. decide_cmp. reflexivity. }
  repeat split; [exact Ev | exact Et |].
  rewrite Et. discriminate.
Qed.

(** ** Failures of the loader *)

(** C7, amended: when the media cannot be decoded or is empty as the code
    tests it, [analyze] returns the error dictionary with a message,
    [is_deepfake = False] and [confidence = 0.0].  Audio: both readers fail
    or the waveform has no sample.  Image: [Image.open] raises.  Video: the
    capture does not open, or announces a frame count or a frame rate of
    zero; the frames actually delivered are not counted. *)
Theorem decode_failure_is_an_error_result :
  (forall p,
      Audio._load_audio p = None \/ Audio._load_audio p = Some [] ->
      exists f, Audio.analyze p = Failed f
                /\ error f = "Could not load audio file"%string
                /\ failure_is_deepfake f = false
                /\ failure_confidence f = 0)
  /\ (forall p msg,
         Image.open_ p = inl msg ->
         exists f, Image.analyze p = Failed f
                   /\ error f = msg
                   /\ failure_is_deepfake f = false
                   /\ failure_confidence f = 0)
  /\ (forall p,
         Video.isOpened p = false
         \/ Video.CAP_PROP_FRAME_COUNT p = 0%Z
         \/ Video.CAP_PROP_FPS p = 0 ->
         exists f, Video.analyze_video p = Failed f
                   /\ (error f = "Could not open video file"%string
                       \/ error f = "Invalid video file"%string)
                   /\ failure_is_deepfake f = false
                   /\ failure_confidence f = 0).
Proof.
  assert (Hz : forall msg, failure_confidence (on_exception msg) = 0).
  { intros msg. simpl. lra. }
  split; [|split].
  - intros p [H|H]; unfold Audio.analyze; rewrite H; simpl;
      eexists; (split; [reflexivity|]); auto.
  - intros p msg H. unfold Image.analyze. rewrite H.
    eexists; (split; [reflexivity|]); auto.
  - intros p H. unfold Video.analyze_video.
    destruct (Video.isOpened p) eqn:Eo; simpl negb; cbv iota.
    + assert (E : ((Video.CAP_PROP_FRAME_COUNT p =? 0)%Z
                   || eqb (Video.CAP_PROP_FPS p) 0)%bool = true).
      { destruct H as [H|[H|H]].
        - discriminate.
        - rewrite H. reflexivity.
        - apply orb_true_iff. right. now apply eqb_true. }
      rewrite E. eexists; (split; [reflexivity|]); auto.
    + eexists; (split; [reflexivity|]); auto.
Qed.

Lemma decode_failure_is_an_error_result_witness :
  (exists f, Audio.analyze missing_audio = Failed f
             /\ error f = "Could not load audio file"%string
             /\ failure_is_deepfake f = false
             /\ failure_confidence f = 0)
  /\ (exists f, Image.analyze unreadable_image = Failed f
                /\ error f = "cannot identify image file"%string
                /\ failure_is_deepfake f = false
                /\ failure_confidence f = 0)
  /\ (exists f, Video.analyze_video unopened_video = Failed f
                /\ (error f = "Could not open video file"%string
                    \/ error f = "Invalid video file"%string)
                /\ failure_is_deepfake f = false
                /\ failure_confidence f = 0).
Proof.
  destruct decode_failure_is_an_error_result as [Ha [Hi Hv]].
  split; [|split].
  - apply (Ha missing_audio). left. reflexivity.
  - apply (Hi unreadable_image). reflexivity.
  - apply (Hv unopened_video). left. reflexivity.
Defined.

(** C7 as stated fails for a video that yields zero frames: a capture
    that opens and announces 30 frames at 25 fps but delivers none is
    analysed like any other, and the result is a report, not the error
    dictionary. *)
Lemma frameless_capture_is_not_an_error :
  Video.isOpened empty_capture = true
  /\ Video.frames empty_capture = []
  /\ ~ (exists f, Video.analyze_video empty_capture = Failed f).
Proof.
  split; [reflexivity|]. split; [reflexivity|].
  intros [f H]. unfold Video.analyze_video in H.
  simpl negb in H. cbv iota in H. simpl Video.CAP_PROP_FPS in H.
  assert (Eo : eqb 25 0 = false).
  { unfold eqb. destruct (Req_dec_T 25 0); [lra | reflexivity]. }
  rewrite Eo in H. simpl in H. discriminate.
Qed.

(** ** Voice consistency *)

Lemma range0_len (n : Z) : (0 <= n)%Z -> np.len (np.range0 n 1) = n.
Proof.
  intros Hn. unfold np.range0, np.len.
  rewrite length_map, length_seq.
  replace (n + 1 - 1)%Z with n by lia.
  rewrite Z.div_1_r. now apply Z2Nat.id.
Qed.

Lemma whole_segments_len (audio : list R) :
  np.len (whole_segments audio) = (np.len audio / 32000)%Z.
Proof.
  unfold whole_segments, np.len at 1. rewrite length_map.
  apply range0_len. apply Z.div_pos; [apply len_nonneg | lia].
Qed.

Lemma mean3 (a b c : R) : np.mean [a; b; c] = (a + b + c) / 3.
Proof. unfold np.mean, np.sum, np.len. simpl. lra. Qed.

Lemma consistency_agrees (audio : list R) :
  Audio.consistency_of audio = spec_consistency audio.
Proof.
  unfold Audio.consistency_of, spec_consistency, cross_segment_deviation,
    Audio.std_axis0, whole_segments.
  change (Audio.sample_rate * 2)%Z with 32000%Z.
  cbv beta zeta. simpl map at 1. rewrite mean3, !map_map.
  unfold Audio.segment_features. simpl nth. lra.
Qed.

Lemma consistency_le_1 (audio : list R) : spec_consistency audio <= 1.
Proof.
  unfold spec_consistency, cross_segment_deviation.
  pose proof (std_nonneg (map np.mean (whole_segments audio))).
  pose proof (std_nonneg (map np.std (whole_segments audio))).
  pose proof (std_nonneg (map (fun s => np.mean (map np.sq s))
                              (whole_segments audio))).
  lra.
Qed.

(** C5: the voice-consistency extractor computes the score rule of the
    specification: 0.3 with fewer than two whole 2-second segments;
    otherwise, with consistency = 1 - mean cross-segment standard deviation
    of the (mean, std, mean-square energy) features, the consistency itself
    when it exceeds 0.95 and max(0, (consistency - 0.7) x 2) when it does
    not. *)
Theorem voice_consistency_follows_score_rule (audio : list R) :
  Audio._voice_consistency_check audio = spec_voice_score audio.
Proof.
  unfold Audio._voice_consistency_check, spec_voice_score.
  rewrite whole_segments_len, consistency_agrees.
  change (Audio.sample_rate * 2)%Z with 32000%Z. cbv zeta.
  destruct (np.len audio / 32000 <? 2)%Z; [reflexivity|].
  destruct (gtb (spec_consistency audio) 0.95) eqn:E.
  - pose proof (consistency_le_1 audio). unfold Rmin.
    destruct (Rle_dec 1.0 (spec_consistency audio)); lra.
  - unfold Rmax. destruct (Rle_dec 0.0 _), (Rle_dec 0 _); lra.
Qed.

(** C9: the voice-consistency sub-score is at most 0.5 or above 0.95; it
    never lies in the interval (0.5, 0.95]. *)
Theorem voice_consistency_avoids_middle_band (audio : list R) :
  Audio._voice_consistency_check audio <= 0.5
  \/ Audio._voice_consistency_check audio > 0.95.
Proof.
  unfold Audio._voice_consistency_check. cbv zeta.
  destruct (_ <? 2)%Z; [left; lra|].
  destruct (gtb (Audio.consistency_of audio) 0.95) eqn:E.
  - right. apply gtb_true in E. unfold Rmin.
    destruct (Rle_dec 1.0 (Audio.consistency_of audio)); lra.
  - left. apply gtb_false in E. unfold Rmax.
    destruct (Rle_dec 0.0 ((Audio.consistency_of audio - 0.7) * 2)); lra.
Qed.

(** ** A silent waveform *)

Notation "'zeros'" := (Forall (fun x : R => x = 0)).

Lemma zeros_repeat (n : nat) : zeros (repeat 0 n).
Proof. apply Forall_forall. intros x Hx. now apply repeat_spec in Hx. Qed.

Lemma zeros_slice (l : list R) (s e : Z) : zeros l -> zeros (np.slice l s e).
Proof.
  intros H. unfold np.slice.
  rewrite <- (firstn_skipn (Z.to_nat s) l) in H.
  apply Forall_app in H as [_ H].
  rewrite <- (firstn_skipn (Z.to_nat (e - s)) (skipn (Z.to_nat s) l)) in H.
  now apply Forall_app in H as [H _].
Qed.

Lemma zeros_map {A : Type} (f : A -> R) (l : list A) :
  (forall a, In a l -> f a = 0) -> zeros (map f l).
Proof.
  intros H. apply Forall_forall. intros x Hx.
  apply in_map_iff in Hx as (a & <- & Ha). now apply H.
Qed.

Lemma sum_zeros (l : list R) : zeros l -> np.sum l = 0.
Proof. induction 1 as [|x l Hx _ IH]; simpl; lra. Qed.

Lemma mean_zeros (l : list R) : zeros l -> np.mean l = 0.
Proof.
  intros H. unfold np.mean. rewrite (sum_zeros l H).
  unfold Rdiv. apply Rmult_0_l.
Qed.

Lemma var_zeros (l : list R) : zeros l -> np.var l = 0.
Proof.
  intros H. unfold np.var. apply mean_zeros, zeros_map.
  intros x Hx. rewrite Forall_forall in H. rewrite (H x Hx), (mean_zeros l).
  - rewrite Rminus_0_r, Rabs_R0. unfold np.sq. lra.
  - now apply Forall_forall.
Qed.

Lemma std_zeros (l : list R) : zeros l -> np.std l = 0.
Proof. intros H. unfold np.std. rewrite (var_zeros l H). apply sqrt_0. Qed.

Lemma whole_segments_zeros (audio : list R) :
  zeros audio -> Forall zeros (whole_segments audio).
Proof.
  intros H. unfold whole_segments. apply Forall_forall. intros s Hs.
  apply in_map_iff in Hs as (i & <- & _). now apply zeros_slice.
Qed.

Lemma zero_waveform_consistency (audio : list R) :
  zeros audio -> spec_consistency audio = 1.
Proof.
  intros H. pose proof (whole_segments_zeros audio H) as Hs.
  rewrite Forall_forall in Hs.
  unfold spec_consistency, cross_segment_deviation.
  rewrite !std_zeros; [lra | | | ]; apply zeros_map; intros s Hin.
  - apply mean_zeros, zeros_map. intros x Hx.
    pose proof (Hs s Hin) as Hz. rewrite Forall_forall in Hz.
    rewrite (Hz x Hx). unfold np.sq. lra.
  - now apply std_zeros, Hs.
  - now apply mean_zeros, Hs.
Qed.

(** An all-zero waveform with two whole segments or more is maximally
    consistent. *)
Lemma zero_waveform_voice (audio : list R) :
  zeros audio -> (2 <= np.len audio / 32000)%Z ->
  Audio._voice_consistency_check audio = 1.
Proof.
  intros H Hn. unfold Audio._voice_consistency_check.
  change (Audio.sample_rate * 2)%Z with 32000%Z. cbv zeta.
  destruct (Z.ltb_spec (np.len audio / 32000) 2); [lia|].
  rewrite consistency_agrees, (zero_waveform_consistency audio H).
  decide_cmp. unfold Rmin. destruct (Rle_dec 1.0 1); lra.
Qed.

Lemma silent_5s_len : np.len silent_5s = 80000%Z.
Proof.
  unfold np.len, silent_5s. rewrite repeat_length. now rewrite Z2Nat.id.
Qed.

Lemma silent_5s_voice : Audio._voice_consistency_check silent_5s = 1.
Proof.
  apply zero_waveform_voice.
  - apply zeros_repeat.
  - rewrite silent_5s_len. now compute.
Qed.

Lemma fft_bin_zeros (audio : list R) (k : nat) :
  zeros audio -> Audio.cabs (Audio.fft_bin audio k) = 0.
Proof.
  intros H. rewrite Forall_forall in H.
  unfold Audio.fft_bin, Audio.cabs. cbv zeta. simpl fst. simpl snd.
  rewrite !sum_zeros.
  - replace (0 * 0 + - 0 * - 0) with 0 by lra. apply sqrt_0.
  - apply zeros_map. intros [j x] Hin. simpl.
    apply in_combine_r in Hin. rewrite (H x Hin). apply Rmult_0_l.
  - apply zeros_map. intros [j x] Hin. simpl.
    apply in_combine_r in Hin. rewrite (H x Hin). apply Rmult_0_l.
Qed.

Lemma magnitude_zeros (audio : list R) :
  zeros audio -> zeros (Audio.magnitude audio).
Proof.
  intros H. unfold Audio.magnitude. cbv zeta. apply zeros_slice.
  unfold Audio.fft. rewrite map_map. apply zeros_map.
  intros k _. now apply fft_bin_zeros.
Qed.

Lemma magnitude_length (audio : list R) :
  List.length (Audio.magnitude audio) = Z.to_nat (np.len audio / 2).
Proof.
  unfold Audio.magnitude, np.slice. cbv zeta.
  rewrite length_firstn. simpl skipn.
  assert (E : np.len (Audio.fft audio) = np.len audio).
  { unfold np.len, Audio.fft. now rewrite length_map, length_seq. }
  rewrite E, Z.sub_0_r, length_map.
  unfold Audio.fft. rewrite length_map, length_seq.
  pose proof (len_nonneg audio). unfold np.len in *.
  apply Nat.min_l. apply Nat2Z.inj_le. rewrite Z2Nat.id.
  - apply Z.div_le_upper_bound; lia.
  - apply Z.div_pos; lia.
Qed.

Lemma freqs_head (audio : list R) :
  (2 <= np.len audio)%Z -> exists rest, Audio.freqs audio = 0 :: rest.
Proof.
  intros Hn. unfold Audio.freqs, Audio.fftfreq, np.slice.
  rewrite Z.sub_0_r. simpl skipn.
  assert (H2 : (1 <= np.len audio / 2)%Z)
    by (apply Z.div_le_lower_bound; lia).
  assert (H0 : (0 <= (np.len audio - 1) / 2)%Z)
    by (apply Z.div_pos; lia).
  destruct (Z.to_nat (np.len audio / 2)) as [|m] eqn:Em; [lia|].
  destruct (Z.to_nat (np.len audio)) as [|n] eqn:En; [lia|].
  simpl. eexists. f_equal.
  destruct (Z.leb_spec 0 ((np.len audio - 1) / 2)); [|lia].
  unfold Rdiv. apply Rmult_0_l.
Qed.

Lemma last_zeros (l : list R) (d : R) : zeros l -> d = 0 -> last l d = 0.
Proof.
  intros H. revert d. induction H as [|x l Hx _ IH]; intros d Hd.
  - exact Hd.
  - simpl. destruct l; [exact Hx | now apply IH].
Qed.

Lemma cumsum_zeros (l : list R) (acc : R) :
  zeros l -> acc = 0 -> zeros (np.cumsum_from acc l).
Proof.
  intros H. revert acc. induction H as [|x l Hx _ IH]; intros acc Hacc.
  - constructor.
  - simpl. constructor; [lra | apply IH; lra].
Qed.

(** The spectrum of an all-zero waveform of two samples or more: centroid
    and rolloff are 0 Hz and the score is 1. *)
Lemma zero_waveform_spectrum (audio : list R) :
  zeros audio -> (2 <= np.len audio)%Z ->
  Audio.spectral_centroid (Audio.magnitude audio) (Audio.freqs audio) = 0
  /\ Audio.spectral_rolloff (Audio.magnitude audio) (Audio.freqs audio)
     = Some 0
  /\ Audio._spectral_analysis audio = 1.
Proof.
  intros H Hn.
  pose proof (magnitude_zeros audio H) as Hm.
  pose proof (magnitude_length audio) as Hl.
  destruct (freqs_head audio Hn) as [fs Ef].
  assert (Ec : Audio.spectral_centroid (Audio.magnitude audio)
                                       (Audio.freqs audio) = 0).
  { unfold Audio.spectral_centroid. rewrite sum_zeros.
    - unfold Rdiv. apply Rmult_0_l.
    - apply zeros_map. intros [m f] Hin. simpl.
      apply in_combine_l in Hin. rewrite Forall_forall in Hm.
      rewrite (Hm m Hin). apply Rmult_0_l. }
  assert (Er : Audio.spectral_rolloff (Audio.magnitude audio)
                                      (Audio.freqs audio) = Some 0).
  { rewrite Ef. destruct (Audio.magnitude audio) as [|m0 ms] eqn:Em.
    - simpl in Hl.
      assert (1 <= np.len audio / 2)%Z
        by (apply Z.div_le_lower_bound; lia).
      lia.
    - unfold Audio.spectral_rolloff, np.cumsum. cbv zeta.
      pose proof (cumsum_zeros (m0 :: ms) 0 Hm eq_refl) as Hc.
      simpl np.cumsum_from in *. inversion Hc as [|c cs Hc0 Hcs]; subst.
      simpl np.last_item. simpl bind. unfold np.where_. simpl np.where_from.
      rewrite (last_zeros _ _ Hcs Hc0).
      assert (Eg : geb (0 + m0) (0 * 0.85) = true)
        by (apply geb_true; lra).
      rewrite Eg. reflexivity. }
  repeat split; [exact Ec | exact Er |].
  unfold Audio._spectral_analysis, Audio.spectral_body. cbv zeta.
  rewrite Er, Ec. simpl.
  replace (0 - 1500) with (- (1500)) by lra.
  replace (0 - 4000) with (- (4000)) by lra.
  rewrite !Rabs_Ropp, !Rabs_pos_eq by lra.
  unfold Rmin. destruct (Rle_dec 1.0 _); lra.
Qed.

(** C6, as the code has it: on five seconds of silence at 16 kHz there
    are two whole segments, so the voice-consistency extractor does not fall
    back; the segments are identical, the consistency is 1 and the score is
    1.  The spectral extractor computes centroid and rolloff as 0 Hz and
    scores 1. *)
Theorem silent_clip_scores :
  Audio._voice_consistency_check silent_5s = 1
  /\ Audio.spectral_centroid (Audio.magnitude silent_5s)
                             (Audio.freqs silent_5s) = 0
  /\ Audio.spectral_rolloff (Audio.magnitude silent_5s)
                            (Audio.freqs silent_5s) = Some 0
  /\ Audio._spectral_analysis silent_5s = 1.
Proof.
  split; [exact silent_5s_voice|].
  apply zero_waveform_spectrum.
  - apply zeros_repeat.
  - rewrite silent_5s_len. lia.
Qed.

(** The voice-consistency extractor does not return its fallback 0.3 on
    the silent clip, which the specification's example expects. *)
Lemma silent_clip_is_not_a_fallback :
  ~ (Audio._voice_consistency_check silent_5s = 0.3
     /\ Audio.spectral_centroid (Audio.magnitude silent_5s)
                                (Audio.freqs silent_5s) = 0
     /\ Audio.spectral_rolloff (Audio.magnitude silent_5s)
                               (Audio.freqs silent_5s) = Some 0).
Proof. intros [H _]. rewrite silent_5s_voice in H. lra. Qed.

(** ** Amplitude normalisation *)

Lemma int16_range (lo hi : byte) :
  (-32768 <= Audio.int16 lo hi <= 32767)%Z.
Proof.
  unfold Audio.int16, Audio.byte_val. cbv zeta.
  pose proof (Byte.to_N_bounded lo). pose proof (Byte.to_N_bounded hi).
  destruct (Z.ltb_spec (Z.of_N (to_N lo) + 256 * Z.of_N (to_N hi)) 32768);
    lia.
Qed.

(** What the 16-bit normalisation does guarantee. *)
Lemma normalize_int16_range (lo hi : byte) :
  - (32768 / 32767) <= IZR (Audio.int16 lo hi) / IZR Audio.iinfo_max_int16
  <= 1.
Proof.
  pose proof (int16_range lo hi) as [Hl Hu].
  apply IZR_le in Hl, Hu. unfold Audio.iinfo_max_int16.
  split.
  - apply Rmult_le_reg_r with (r := 32767); [lra|].
    unfold Rdiv. rewrite Rmult_assoc, Rinv_l by lra. lra.
  - apply Rmult_le_reg_r with (r := 32767); [lra|].
    unfold Rdiv. rewrite Rmult_assoc, Rinv_l by lra. lra.
Qed.

(** C8 fails on the code: the 16-bit sample -32768 is divided by
    [np.iinfo(np.int16).max = 32767], and the loaded sample is below -1. *)
Theorem full_scale_sample_is_below_minus_one :
  Audio._load_audio full_scale_wav = Some [IZR (-32768) / IZR 32767]
  /\ IZR (-32768) / IZR 32767 < -1.
Proof.
  split.
  - reflexivity.
  - apply Rmult_lt_reg_r with (r := 32767); [lra|].
    unfold Rdiv. rewrite Rmult_assoc, Rinv_l by lra. lra.
Qed.

(** ** Bounds of the scores *)

Lemma Rmin_cap (x : R) : Rmin 1.0 x <= 1.
Proof. unfold Rmin. destruct (Rle_dec 1.0 x); lra. Qed.

Lemma Rabs_div_nonneg (x c : R) : 0 < c -> 0 <= Rabs x / c.
Proof.
  intros Hc. apply Rmult_le_pos; [apply Rabs_pos|].
  left. now apply Rinv_0_lt_compat.
Qed.

Lemma div_nonneg (x c : R) : 0 <= x -> 0 < c -> 0 <= x / c.
Proof.
  intros Hx Hc. apply Rmult_le_pos; [exact Hx|].
  left. now apply Rinv_0_lt_compat.
Qed.

Lemma mean_unit (l : list R) :
  Forall (fun x => 0 <= x <= 1) l -> 0 <= np.mean l <= 1.
Proof.
  intros H. split.
  - apply mean_nonneg. eapply Forall_impl; [|exact H]. simpl. intros; lra.
  - apply mean_le_1. eapply Forall_impl; [|exact H]. simpl. intros; lra.
Qed.

(** *** Video: per-face extractors *)

Lemma detect_compression_unit (face : Video.face_crop) :
  0 <= Video._detect_compression_artifacts face <= 1.
Proof.
  unfold Video._detect_compression_artifacts.
  destruct (Video.size face =? 0)%Z; simpl; [lra|].
  destruct (Video.high_freq_energy face); simpl; [|lra].
  destruct (Video.low_freq_energy face); simpl; [|lra].
  apply Rmin_unit, Rabs_pos.
Qed.

Lemma sharp_face_artifacts : Video._detect_artifacts sharp_face > 0.5.
Proof.
  unfold Video._detect_artifacts, Video._check_blocking_artifacts,
    sharp_face, np.mean, np.sum, np.len.
  simpl.
  assert (H : 0 <= Rmin 1.0 ((4 + (6 + (5 + (5 + (3 + 0))))) / 5 / 10.0))
    by (apply Rmin_unit; lra).
  apply Rmin_glb_lt; lra.
Qed.

Lemma sharp_face_anomaly : Video._analyze_face sharp_face = 0.21.
Proof.
  unfold Video._analyze_face, sharp_face. simpl.
  decide_cmp. replace (30 - 20) with 10 by lra.
  rewrite Rabs_pos_eq by lra. eval_min. lra.
Qed.

(** *** Video: the flag counter *)

(** A face with visible artifacts adds one entry to
    [face_inconsistencies], whatever the frame already contributed. *)
Lemma visit_face_flags (st : Video.loop_state) (face : Video.face_crop) :
  Video._detect_artifacts face > 0.5 ->
  Video.face_inconsistencies (Video.visit_face st face)
  = Video.face_inconsistencies st ++ [Video.frame_idx st].
Proof.
  intros H. unfold Video.visit_face. simpl.
  apply gtb_true in H. now rewrite H.
Qed.

Lemma group_clip_loop :
  let st := Video.run_loop 1 (Video.frames group_clip) in
  Video.frames_analyzed st = 1%Z
  /\ Video.face_inconsistencies st = [0; 0; 0]%Z
  /\ Video.anomaly_scores st = [0.21; 0.21; 0.21]
  /\ Video.compression_artifacts st
     = repeat (Video._detect_compression_artifacts sharp_face) 3.
Proof.
  pose proof sharp_face_artifacts as Ha. apply gtb_true in Ha.
  unfold Video.run_loop, group_clip, group_frame. simpl Video.frames.
  generalize (uniform_gray 100 120 160). intros g.
  cbn [fold_left]. unfold Video.visit_frame, Video.initial_state.
  cbn [Video.frame_idx Video.prev_frame_gray Video.frames_analyzed
       Video.anomaly_scores Video.face_inconsistencies
       Video.compression_artifacts].
  change (0 mod 1 =? 0)%Z with true. cbv iota.
  unfold Video.visit_sampled.
  cbn [Video.detected_faces Video.gray fold_left].
  unfold Video.visit_face.
  cbn [Video.frame_idx Video.prev_frame_gray Video.frames_analyzed
       Video.anomaly_scores Video.face_inconsistencies
       Video.compression_artifacts app].
  rewrite Ha, sharp_face_anomaly. cbv iota.
  cbn [Video.frame_idx Video.prev_frame_gray Video.frames_analyzed
       Video.anomaly_scores Video.face_inconsistencies
       Video.compression_artifacts app].
  repeat split.
Qed.

Lemma group_clip_analyzed :
  exists r, Video.analyze_video group_clip = Report r.
Proof.
  assert (Eo : eqb 25 0 = false).
  { unfold eqb. destruct (Req_dec_T 25 0); [lra | reflexivity]. }
  eexists. unfold Video.analyze_video. simpl negb. cbv iota.
  simpl Video.CAP_PROP_FPS. rewrite Eo. simpl orb. cbv iota.
  reflexivity.
Qed.

(** C1 fails on the code.  The clip [group_clip] has one frame showing
    three faces with visible artifacts; each face appends the frame index to
    [face_inconsistencies], so the list has three entries for one analysed
    frame.  The temporal-inconsistency sub-score is 3 and the overall score
    is above 1. *)
Theorem group_clip_temporal_score_is_three :
  exists r,
    Video.analyze_video group_clip = Report r
    /\ Video.details_frames_analyzed (Video.report_details r) = 1%Z
    /\ Video.details_face_inconsistencies (Video.report_details r) = 3%Z
    /\ Video.temporal_inconsistency (Video.report_details r) = 3
    /\ 1 < Video.overall_score
             (Video.anomaly_score (Video.report_details r))
             (Video.temporal_inconsistency (Video.report_details r))
             (Video.details_compression_artifacts (Video.report_details r)).
Proof.
  destruct group_clip_analyzed as [r Hr]. exists r. split; [exact Hr|].
  apply video_report_fused in Hr. cbv zeta in Hr.
  change (Z.max 1 (Video.CAP_PROP_FRAME_COUNT group_clip / 30)) with 1%Z in Hr.
  destruct group_clip_loop as (Hn & Hf & Ha & Hc).
  unfold Video.final_scores in Hr. cbv zeta in Hr.
  rewrite Hn, Hf, Ha, Hc in Hr. subst r.
  cbn [Video.report_details Video.fuse Video.details_frames_analyzed
       Video.details_face_inconsistencies Video.temporal_inconsistency
       Video.anomaly_score Video.details_compression_artifacts fst snd
       repeat].
  pose proof (detect_compression_unit sharp_face) as Hcu.
  set (c := Video._detect_compression_artifacts sharp_face) in *.
  assert (Et : IZR (np.len [0; 0; 0]%Z) / IZR (Z.max 1 1) = 3).
  { change (np.len [0; 0; 0]%Z) with 3%Z.
    change (Z.max 1 1) with 1%Z. lra. }
  rewrite Et.
  assert (Em : forall x : R, np.mean [x; x; x] = x).
  { intros x. rewrite mean3. lra. }
  rewrite !Em. unfold Video.overall_score.
  repeat split; lra.
Qed.

Lemma analyze_face_unit (face : Video.face_crop) :
  0 <= Video._analyze_face face <= 1.
Proof.
  unfold Video._analyze_face.
  destruct (Video.size face =? 0)%Z; simpl; [lra|].
  destruct (Video.laplacian_variance face) as [v|]; simpl; [|lra].
  destruct (Video.edge_density face) as [d|]; simpl; [|lra].
  destruct (Video.hue_variance face) as [c|]; simpl; [|lra].
  apply Rmin_unit.
  pose proof (Rmin_cap (v / 500.0)).
  assert (0 <= Rmin 1.0 (Rabs (c - 20) / 20.0))
    by (apply Rmin_unit, Rabs_div_nonneg; lra).
  unfold ltb. destruct (Rlt_dec d 0.15); lra.
Qed.

(** *** Audio: every sub-score is in the unit interval *)

Lemma spectral_unit (audio : list R) :
  0 <= Audio._spectral_analysis audio <= 1.
Proof.
  unfold Audio._spectral_analysis, Audio.spectral_body. cbv zeta.
  destruct (Audio.spectral_rolloff _ _) as [rolloff|]; simpl; [|lra].
  apply Rmin_unit.
  pose proof (Rabs_div_nonneg
                (Audio.spectral_centroid (Audio.magnitude audio)
                                         (Audio.freqs audio) - 1500)
                1500.0 ltac:(lra)).
  pose proof (Rabs_div_nonneg (rolloff - 4000) 4000.0 ltac:(lra)).
  lra.
Qed.

Lemma frame_energy_nonneg (audio : list R) (frame_length i : Z) :
  0 <= Audio.frame_energy audio frame_length i.
Proof.
  unfold Audio.frame_energy. apply sum_nonneg, Forall_map, Forall_forall.
  intros x _. apply sq_nonneg.
Qed.

Lemma temporal_unit (audio : list R) :
  0 <= Audio._temporal_analysis audio <= 1.
Proof.
  unfold Audio._temporal_analysis. cbv zeta.
  destruct (_ >? 1)%Z; [|lra].
  apply Rmin_unit, div_nonneg; [apply var_nonneg|].
  assert (0 <= np.mean
                 (map (Audio.frame_energy audio (Audio.sample_rate / 100))
                      (np.range0 (np.len audio - Audio.sample_rate / 100)
                                 (Audio.sample_rate / 100)))).
  { apply mean_nonneg, Forall_map, Forall_forall.
    intros i _. apply frame_energy_nonneg. }
  lra.
Qed.

Lemma voice_unit (audio : list R) :
  0 <= Audio._voice_consistency_check audio <= 1.
Proof.
  unfold Audio._voice_consistency_check. cbv zeta.
  destruct (_ <? 2)%Z; [lra|].
  destruct (gtb (Audio.consistency_of audio) 0.95) eqn:E.
  - apply gtb_true in E. apply Rmin_unit. lra.
  - apply gtb_false in E. unfold Rmax.
    destruct (Rle_dec 0.0 ((Audio.consistency_of audio - 0.7) * 2)); lra.
Qed.

Lemma prosody_unit (audio : list R) :
  0 <= Audio._prosody_analysis audio <= 1.
Proof.
  unfold Audio._prosody_analysis. cbv zeta.
  destruct (_ <? 10)%Z; [lra|].
  pose proof (Rmin_unit _ (Rabs_div_nonneg
                             (np.var (Audio.pitch_track audio) - 300)
                             300.0 ltac:(lra))).
  pose proof (Rmin_unit _ (Rabs_div_nonneg
                             (np.max (Audio.pitch_track audio)
                              - np.min (Audio.pitch_track audio) - 150)
                             150.0 ltac:(lra))).
  lra.
Qed.

(** Audio: on every waveform the four
    sub-scores and their weighted sum are in [0,1] and the confidence is in
    [0, 0.98]. *)
Lemma audio_scores_bounded (audio : list R) :
  let r := Audio.analyze_waveform audio in
  let d := Audio.report_details r in
  0 <= Audio.spectral_anomaly_score d <= 1
  /\ 0 <= Audio.temporal_anomaly_score d <= 1
  /\ 0 <= Audio.voice_consistency_score d <= 1
  /\ 0 <= Audio.prosody_score d <= 1
  /\ 0 <= Audio.overall_score (Audio.spectral_anomaly_score d)
                              (Audio.temporal_anomaly_score d)
                              (Audio.voice_consistency_score d)
                              (Audio.prosody_score d) <= 1
  /\ 0 <= Audio.confidence r <= 0.98.
Proof.
  pose proof (spectral_unit audio). pose proof (temporal_unit audio).
  pose proof (voice_unit audio). pose proof (prosody_unit audio).
  cbv zeta. simpl. unfold Audio.overall_score.
  repeat split; try lra; unfold Rmin; destruct (Rle_dec _ _); lra.
Qed.

(** *** Video: everything but the flag ratio *)

Lemma visit_face_scores (st : Video.loop_state) (face : Video.face_crop) :
  Forall (fun x => 0 <= x <= 1) (Video.anomaly_scores st) ->
  Forall (fun x => 0 <= x <= 1) (Video.compression_artifacts st) ->
  Forall (fun x => 0 <= x <= 1)
         (Video.anomaly_scores (Video.visit_face st face))
  /\ Forall (fun x => 0 <= x <= 1)
            (Video.compression_artifacts (Video.visit_face st face)).
Proof.
  intros Ha Hc. unfold Video.visit_face. simpl. split.
  - apply Forall_app. split; [exact Ha|].
    constructor; [apply analyze_face_unit | constructor].
  - apply Forall_app. split; [exact Hc|].
    constructor; [apply detect_compression_unit | constructor].
Qed.

Lemma visit_frame_scores (sample_rate : Z) (st : Video.loop_state)
                         (fr : Video.frame) :
  Forall (fun x => 0 <= x <= 1) (Video.anomaly_scores st)
  /\ Forall (fun x => 0 <= x <= 1) (Video.compression_artifacts st) ->
  Forall (fun x => 0 <= x <= 1)
         (Video.anomaly_scores (Video.visit_frame sample_rate st fr))
  /\ Forall (fun x => 0 <= x <= 1)
            (Video.compression_artifacts
               (Video.visit_frame sample_rate st fr)).
Proof.
  intros H. unfold Video.visit_frame.
  destruct (_ =? 0)%Z; simpl; [|exact H].
  unfold Video.visit_sampled. simpl.
  generalize dependent st.
  induction (Video.detected_faces fr) as [|face faces IH]; intros st H.
  - exact H.
  - simpl. apply IH. destruct H. now apply visit_face_scores.
Qed.

Lemma run_loop_scores (sample_rate : Z) (fs : list Video.frame) :
  let st := Video.run_loop sample_rate fs in
  Forall (fun x => 0 <= x <= 1) (Video.anomaly_scores st)
  /\ Forall (fun x => 0 <= x <= 1) (Video.compression_artifacts st).
Proof.
  unfold Video.run_loop.
  assert (H : Forall (fun x => 0 <= x <= 1)
                     (Video.anomaly_scores Video.initial_state)
              /\ Forall (fun x => 0 <= x <= 1)
                        (Video.compression_artifacts Video.initial_state))
    by (split; constructor).
  revert H. generalize Video.initial_state.
  induction fs as [|fr fs IH]; intros st H.
  - exact H.
  - simpl. apply IH. now apply visit_frame_scores.
Qed.

(** Video: the face-anomaly and the
    compression sub-scores are in [0,1], the flag ratio is non-negative and
    the confidence is in [0, 0.98]. *)
Lemma video_scores_bounded (p : Video.video_path) (r : Video.report) :
  Video.analyze_video p = Report r ->
  let d := Video.report_details r in
  0 <= Video.anomaly_score d <= 1
  /\ 0 <= Video.details_compression_artifacts d <= 1
  /\ 0 <= Video.temporal_inconsistency d
  /\ 0 <= Video.confidence r <= 0.98.
Proof.
  intros H. apply video_report_fused in H. cbv zeta in H. subst r.
  set (st := Video.run_loop _ _).
  destruct (run_loop_scores
              (Z.max 1 (Video.CAP_PROP_FRAME_COUNT p / 30)) (Video.frames p))
    as [Ha Hc]. fold st in Ha, Hc.
  cbv zeta. simpl.
  assert (Ba : 0 <= match Video.anomaly_scores st with
                    | [] => 0.3
                    | _ => np.mean (Video.anomaly_scores st)
                    end <= 1).
  { destruct (Video.anomaly_scores st); [lra | now apply mean_unit]. }
  assert (Bc : 0 <= match Video.compression_artifacts st with
                    | [] => 0.3
                    | _ => np.mean (Video.compression_artifacts st)
                    end <= 1).
  { destruct (Video.compression_artifacts st); [lra | now apply mean_unit]. }
  assert (Bt : 0 <= IZR (np.len (Video.face_inconsistencies st))
                    / IZR (Z.max 1 (Video.frames_analyzed st))).
  { apply div_nonneg.
    - apply IZR_le, len_nonneg.
    - apply IZR_lt. lia. }
  unfold Video.overall_score.
  repeat split; try lra; unfold Rmin; destruct (Rle_dec _ _); lra.
Qed.

(** *** Image: every sub-score is in the unit interval *)

Lemma pixel_unit (im : Image.image_np) :
  image_measured im -> 0 <= Image._pixel_level_analysis im <= 1.
Proof.
  intros (Hd & _). unfold Image._pixel_level_analysis.
  destruct (Image.edge_density im) as [d|]; simpl; [|lra].
  destruct (Image.laplacian_variance im) as [v|]; simpl; [|lra].
  destruct (Image.color_variance im) as [c|]; simpl; [|lra].
  apply Rmin_unit.
  pose proof (Rmin_cap (v / 1000.0)).
  assert (0 <= Rmin 1.0 (Rabs (c - 500) / 500.0))
    by (apply Rmin_unit, Rabs_div_nonneg; lra).
  lra.
Qed.

Lemma frequency_unit (im : Image.image_np) :
  0 <= Image._frequency_domain_analysis im <= 1.
Proof.
  unfold Image._frequency_domain_analysis.
  destruct (Image.high_freq_energy im) as [h|]; simpl; [|lra].
  destruct (Image.low_freq_energy im) as [l|]; simpl; [|lra].
  apply Rmin_unit, Rabs_div_nonneg. lra.
Qed.

Lemma jpeg_unit (im : Image.image_np) :
  image_measured im -> 0 <= Image._detect_jpeg_artifacts im <= 1.
Proof.
  intros (_ & _ & _ & Hb & _). unfold Image._detect_jpeg_artifacts.
  cbv zeta. destruct (_ || _)%bool; simpl; [lra|].
  destruct (Image.block_discontinuities im) as [l|]; simpl; [|lra].
  apply Rmin_unit, div_nonneg; [|lra].
  destruct l; [lra | now apply mean_nonneg].
Qed.

Lemma ai_generated_unit (im : Image.image_np) :
  image_measured im -> 0 <= Image._detect_ai_generated im <= 1.
Proof.
  intros H. pose proof (jpeg_unit im H) as Hj.
  destruct H as (_ & Hc & Hn & _). unfold Image._detect_ai_generated.
  destruct (Image.noise_variance im) as [n|]; simpl; [|lra].
  destruct (Image.color_variance im) as [c|]; simpl; [|lra].
  simpl in Hc, Hn. apply Rmin_unit.
  assert (0 <= Rmin 1.0 (n / 50.0))
    by (apply Rmin_unit, div_nonneg; lra).
  assert (0 <= Rmin 1.0 (c / 1000.0))
    by (apply Rmin_unit, div_nonneg; lra).
  set (sims := flat_map _ (Image.block_correlations im)).
  assert (Hs : Forall (fun x => 0 <= x) sims).
  { unfold sims. apply Forall_forall. intros x Hx.
    apply in_flat_map in Hx as ([v|] & _ & Hv); simpl in Hv.
    - destruct Hv as [<-|[]]. apply Rabs_pos.
    - destruct Hv. }
  assert (0 <= match sims with [] => 0.3 | _ => np.mean sims end).
  { destruct sims; [lra | now apply mean_nonneg]. }
  lra.
Qed.

Lemma face_score_unit (f : Image.face_box) :
  face_box_measured f ->
  Forall (fun x => 0 <= x <= 1) (Image.face_score f).
Proof.
  intros (Ht & Hb & Hl & Hr). unfold Image.face_score.
  destruct (_ && _)%bool; [|constructor].
  constructor; [|constructor].
  assert (0 <= np.mean [Image.top_edge_var f; Image.bottom_edge_var f;
                        Image.left_edge_var f; Image.right_edge_var f])
    by (apply mean_nonneg; repeat (constructor; [assumption|]);
        constructor).
  unfold Rmax. destruct (Rle_dec 0 _); lra.
Qed.

Lemma face_check_unit (im : Image.image_np) :
  image_measured im -> 0 <= Image._face_manipulation_check im <= 1.
Proof.
  intros (_ & _ & _ & _ & Hf). unfold Image._face_manipulation_check.
  destruct (Image.faces im) as [l|]; simpl; [|lra].
  destruct (np.len l =? 0)%Z; simpl; [lra|].
  assert (Hs : Forall (fun x => 0 <= x <= 1) (flat_map Image.face_score l)).
  { apply Forall_forall. intros x Hx.
    apply in_flat_map in Hx as (f & Hin & Hx).
    rewrite Forall_forall in Hf.
    pose proof (face_score_unit f (Hf f Hin)) as Hu.
    rewrite Forall_forall in Hu. now apply Hu. }
  destruct (flat_map Image.face_score l); [lra | now apply mean_unit].
Qed.

(** Images: with measurements as the
    libraries deliver them, the four sub-scores and their weighted sum are
    in [0,1] and the confidence is in [0, 0.98]. *)
Lemma image_scores_bounded (p : Image.image_path) (r : Image.report) :
  Image.analyze p = Report r ->
  (forall im, Image.open_ p = inr im -> image_measured im) ->
  let d := Image.report_details r in
  0 <= Image.pixel_analysis_score d <= 1
  /\ 0 <= Image.frequency_analysis_score d <= 1
  /\ 0 <= Image.ai_generated_score d <= 1
  /\ 0 <= Image.face_manipulation_score d <= 1
  /\ 0 <= Image.overall_score (Image.pixel_analysis_score d)
                              (Image.frequency_analysis_score d)
                              (Image.ai_generated_score d)
                              (Image.face_manipulation_score d) <= 1
  /\ 0 <= Image.confidence r <= 0.98.
Proof.
  intros H Hm. apply image_report_fused in H as (im & Ho & ->).
  specialize (Hm im Ho).
  pose proof (pixel_unit im Hm). pose proof (frequency_unit im).
  pose proof (ai_generated_unit im Hm). pose proof (face_check_unit im Hm).
  cbv zeta. simpl. unfold Image.overall_score.
  repeat split; try lra; unfold Rmin; destruct (Rle_dec _ _); lra.
Qed.

(** ** A label without a positive verdict, on a waveform

    On an input of [analyze]: two silent samples give the
    sub-scores 1, 0.3, 0.3, 0.3, an overall score of 0.51 and a negative
    verdict, with the label "synthesized_speech". *)
Lemma two_silent_samples_report :
  let r := Audio.analyze_waveform [0; 0] in
  Audio.is_deepfake r = false
  /\ Audio.manipulation_type r = "synthesized_speech"%string.
Proof.
  assert (Es : Audio._spectral_analysis [0; 0] = 1).
  { apply zero_waveform_spectrum.
    - repeat constructor.
    - now compute. }
  assert (Et : Audio._temporal_analysis [0; 0] = 0.3) by reflexivity.
  assert (Ev : Audio._voice_consistency_check [0; 0] = 0.3) by reflexivity.
  assert (Ep : Audio._prosody_analysis [0; 0] = 0.3) by reflexivity.
  cbv zeta. unfold Audio.analyze_waveform. rewrite Es, Et, Ev, Ep.
  split; simpl.
  - apply gtb_false. unfold Audio.overall_score. lra.
  - unfold Audio._classify_audio_type. decide_cmp. reflexivity.
Qed.

(** * Further properties of the detectors *)

(** ** The audio loader *)

Lemma stride_from_nth_error {A : Type} (step : nat) (a : list A) :
  (1 <= step)%nat ->
  forall skip i,
    nth_error (np.stride_from step skip a) i
    = nth_error a (skip + i * step).
Proof.
  intros Hs. induction a as [|x r IH]; intros skip i.
  - simpl. now destruct i, (skip + _)%nat.
  - destruct skip as [|k]; simpl np.stride_from.
    + destruct i as [|i]; [reflexivity|].
      simpl nth_error at 1. rewrite IH.
      replace (0 + S i * step)%nat with (S (pred step + i * step)) by lia.
      reflexivity.
    + rewrite IH. reflexivity.
Qed.

Lemma stride_from_length {A : Type} (step : nat) (a : list A) :
  (1 <= step)%nat ->
  forall skip,
    List.length (np.stride_from step skip a)
    = ((List.length a + step - 1 - skip) / step)%nat.
Proof.
  intros Hs. induction a as [|x r IH]; intros skip.
  - simpl. symmetry. apply Nat.div_small. lia.
  - destruct skip as [|k]; simpl np.stride_from; simpl List.length.
    + rewrite IH.
      replace (List.length r + step - 1 - pred step)%nat
        with (List.length r) by lia.
      replace (S (List.length r) + step - 1 - 0)%nat
        with (List.length r + 1 * step)%nat by lia.
      rewrite Nat.div_add by lia. lia.
    + rewrite IH. f_equal. lia.
Qed.

Lemma stride_from_incl {A : Type} (step : nat) (a : list A) :
  forall skip x, In x (np.stride_from step skip a) -> In x a.
Proof.
  induction a as [|y r IH]; intros skip x H.
  - destruct H.
  - destruct skip as [|k]; simpl in H.
    + destruct H as [->|H]; [now left | right; eauto].
    + right. eauto.
Qed.

Lemma stride_one {A : Type} (a : list A) : np.stride a 1 = a.
Proof.
  unfold np.stride. change (Z.to_nat 1) with 1%nat.
  induction a as [|x r IH]; simpl; [reflexivity | now rewrite IH].
Qed.

(** The samples of a WAV file before resampling. *)
Lemma read_wave_at_rate (wf : Audio.wave_file) (a : list R) :
  Audio.read_wave wf = Some a ->
  exists full,
    Audio.read_wave
      {| Audio.getframerate := Audio.sample_rate;
         Audio.getsampwidth := Audio.getsampwidth wf;
         Audio.readframes := Audio.readframes wf |} = Some full
    /\ a = if (Audio.getframerate wf =? Audio.sample_rate)%Z then full
           else np.stride full
                  (Z.max 1 (Audio.getframerate wf / Audio.sample_rate)).
Proof.
  unfold Audio.read_wave. cbv zeta. simpl.
  destruct (if (Audio.getsampwidth wf =? 2)%Z then _ else _) as [full|];
    simpl; [|discriminate].
  intros H. injection H as <-. now exists full.
Qed.

(** X1: resampling is plain decimation.  A WAV file at rate [r] other
    than 16 kHz keeps every [max(1, r // 16000)]-th sample: sample [i] of
    the result is sample [i * step] of the file and the length is the
    rounded-up quotient.  Any rate below 32 kHz has step 1, so the samples
    pass through unchanged. *)
Theorem resampling_is_decimation (wf : Audio.wave_file) (a : list R) :
  Audio.read_wave wf = Some a ->
  exists full,
    Audio.read_wave
      {| Audio.getframerate := Audio.sample_rate;
         Audio.getsampwidth := Audio.getsampwidth wf;
         Audio.readframes := Audio.readframes wf |} = Some full
    /\ let step := if (Audio.getframerate wf =? 16000)%Z then 1%Z
                   else Z.max 1 (Audio.getframerate wf / 16000) in
       (forall i, nth_error a i = nth_error full (i * Z.to_nat step))
       /\ np.len a = ((np.len full + step - 1) / step)%Z
       /\ ((Audio.getframerate wf < 32000)%Z -> a = full).
Proof.
  intros H. destruct (read_wave_at_rate wf a H) as (full & Hf & Ha).
  exists full. split; [exact Hf|].
  change Audio.sample_rate with 16000%Z in Ha.
  destruct (Audio.getframerate wf =? 16000)%Z eqn:Er.
  - subst a. cbv zeta. change (Z.to_nat 1) with 1%nat.
    repeat split.
    + intros i. now rewrite Nat.mul_1_r.
    + replace (np.len full + 1 - 1)%Z with (np.len full) by lia.
      now rewrite Z.div_1_r.
  - set (step := Z.max 1 (Audio.getframerate wf / 16000)) in *.
    assert (Hs : (1 <= step)%Z) by (unfold step; lia).
    assert (Hn : (1 <= Z.to_nat step)%nat) by lia.
    cbv zeta. subst a. unfold np.stride. repeat split.
    + intros i. now rewrite stride_from_nth_error.
    + unfold np.len. rewrite stride_from_length by exact Hn.
      rewrite Nat.sub_0_r, Nat2Z.inj_div, Nat2Z.inj_sub by lia.
      rewrite Nat2Z.inj_add, Z2Nat.id by lia. reflexivity.
    + intros Hr.
      assert (Audio.getframerate wf / 16000 < 2)%Z
        by (apply Z.div_lt_upper_bound; lia).
      assert (E : step = 1%Z) by (unfold step; lia).
      rewrite E. apply (stride_one full).
Qed.

Lemma resampling_is_decimation_witness :
  exists full,
    Audio.read_wave
      {| Audio.getframerate := Audio.sample_rate;
         Audio.getsampwidth := Audio.getsampwidth wave_48k;
         Audio.readframes := Audio.readframes wave_48k |} = Some full
    /\ let step := if (Audio.getframerate wave_48k =? 16000)%Z then 1%Z
                   else Z.max 1 (Audio.getframerate wave_48k / 16000) in
       (forall i, nth_error (Audio.normalize 255 [0; 153; 128]%Z) i
                  = nth_error full (i * Z.to_nat step))
       /\ np.len (Audio.normalize 255 [0; 153; 128]%Z)
          = ((np.len full + step - 1) / step)%Z
       /\ ((Audio.getframerate wave_48k < 32000)%Z
           -> Audio.normalize 255 [0; 153; 128]%Z = full).
Proof.
  apply (resampling_is_decimation wave_48k). reflexivity.
Defined.

Lemma frombuffer_int16_range_pair (b : list byte) :
  (forall l, Audio.frombuffer_int16 b = Some l ->
             Forall (fun s => (-32768 <= s <= 32767)%Z) l)
  /\ (forall x l, Audio.frombuffer_int16 (x :: b) = Some l ->
                  Forall (fun s => (-32768 <= s <= 32767)%Z) l).
Proof.
  induction b as [|hi r [IH0 IH1]].
  - split.
    + intros l H. injection H as <-. constructor.
    + intros x l H. discriminate.
  - split.
    + exact (IH1 hi).
    + intros lo l H. simpl in H.
      destruct (Audio.frombuffer_int16 r) as [l'|] eqn:E; [|discriminate].
      injection H as <-. constructor; [apply int16_range | now apply IH0].
Qed.

Lemma frombuffer_int16_range (b : list byte) (l : list Z) :
  Audio.frombuffer_int16 b = Some l ->
  Forall (fun s => (-32768 <= s <= 32767)%Z) l.
Proof. apply frombuffer_int16_range_pair. Qed.

Lemma normalize_int16_list (l : list Z) :
  Forall (fun s => (-32768 <= s <= 32767)%Z) l ->
  Forall (fun x => - (32768 / 32767) <= x <= 1)
         (Audio.normalize Audio.iinfo_max_int16 l).
Proof.
  intros H. unfold Audio.normalize. apply Forall_map.
  eapply Forall_impl; [|exact H]. intros s [Hl Hu]. simpl.
  apply IZR_le in Hl, Hu. unfold Audio.iinfo_max_int16. split.
  - apply Rmult_le_reg_r with (r := 32767); [lra|].
    unfold Rdiv. rewrite Rmult_assoc, Rinv_l by lra. lra.
  - apply Rmult_le_reg_r with (r := 32767); [lra|].
    unfold Rdiv. rewrite Rmult_assoc, Rinv_l by lra. lra.
Qed.

Lemma normalize_uint8_list (b : list byte) :
  Forall (fun x => 0 <= x <= 1)
         (Audio.normalize Audio.iinfo_max_uint8 (Audio.frombuffer_uint8 b)).
Proof.
  unfold Audio.normalize, Audio.frombuffer_uint8. rewrite map_map.
  apply Forall_forall. intros x Hx.
  apply in_map_iff in Hx as (c & <- & _).
  unfold Audio.byte_val, Audio.iinfo_max_uint8.
  pose proof (Byte.to_N_bounded c) as Hb.
  assert (Hl : (0 <= Z.of_N (to_N c))%Z) by lia.
  assert (Hu : (Z.of_N (to_N c) <= 255)%Z) by lia.
  apply IZR_le in Hl, Hu. split.
  - apply div_nonneg; lra.
  - apply Rmult_le_reg_r with (r := 255); [lra|].
    unfold Rdiv. rewrite Rmult_assoc, Rinv_l by lra. lra.
Qed.

Lemma Forall_stride {A : Type} (P : A -> Prop) (a : list A) (step : Z) :
  Forall P a -> Forall P (np.stride a step).
Proof.
  intros H. rewrite Forall_forall in *. intros x Hx.
  apply H. unfold np.stride in Hx. eapply stride_from_incl; eauto.
Qed.

(** X2: the range of a waveform read from a WAV file.  16-bit data lands in
    [-32768/32767, 1]; data of any other sample width is read as unsigned
    bytes and lands in [0, 1], so it is never centred on zero. *)
Theorem wave_samples_range (wf : Audio.wave_file) (a : list R) :
  Audio.read_wave wf = Some a ->
  Forall (fun x => - (32768 / 32767) <= x <= 1) a
  /\ (Audio.getsampwidth wf <> 2%Z -> Forall (fun x => 0 <= x <= 1) a).
Proof.
  unfold Audio.read_wave. cbv zeta.
  destruct (Z.eqb_spec (Audio.getsampwidth wf) 2) as [E|E].
  - destruct (Audio.frombuffer_int16 (Audio.readframes wf)) as [l|] eqn:El;
      simpl; [|discriminate].
    intros H. injection H as <-. split; [|contradiction].
    pose proof (normalize_int16_list l (frombuffer_int16_range _ l El)).
    destruct (_ =? _)%Z; [assumption | now apply Forall_stride].
  - simpl. intros H. injection H as <-.
    pose proof (normalize_uint8_list (Audio.readframes wf)) as Hu.
    assert (Hw : Forall (fun x => - (32768 / 32767) <= x <= 1)
                        (Audio.normalize Audio.iinfo_max_uint8
                           (Audio.frombuffer_uint8 (Audio.readframes wf)))).
    { eapply Forall_impl; [|exact Hu]. simpl. intros x Hx. lra. }
    destruct (_ =? _)%Z; split; intros;
      assumption || now apply Forall_stride.
Qed.

Lemma wave_samples_range_witness :
  Forall (fun x => - (32768 / 32767) <= x <= 1)
         (Audio.normalize 255 [0; 153; 128]%Z)
  /\ (Audio.getsampwidth wave_48k <> 2%Z
      -> Forall (fun x => 0 <= x <= 1)
                (Audio.normalize 255 [0; 153; 128]%Z)).
Proof.
  apply (wave_samples_range wave_48k). reflexivity.
Defined.

Lemma frombuffer_int16_parity (b : list byte) :
  (Audio.frombuffer_int16 b = None <-> Nat.odd (List.length b) = true)
  /\ (forall x, Audio.frombuffer_int16 (x :: b) = None
                <-> Nat.odd (List.length (x :: b)) = true).
Proof.
  induction b as [|hi r [IH0 IH1]].
  - split; [|intros x]; cbn; split; intros H;
      reflexivity || discriminate.
  - split.
    + exact (IH1 hi).
    + intros lo. simpl Audio.frombuffer_int16.
      change (Nat.odd (List.length (lo :: hi :: r)))
        with (Nat.odd (List.length r)).
      rewrite <- IH0.
      destruct (Audio.frombuffer_int16 r); simpl; split; intros H;
        reflexivity || discriminate.
Qed.

(** X3: the raw fallback.  When [wave.open] rejects the file, or accepts
    it with a sample width of 2 and [readframes] returns an odd number of
    bytes (a data chunk cut short, on which [np.frombuffer] raises), the
    loader returns the first 960000 values of the float32 reading of the
    file, or nothing when that reading fails too. *)
Theorem raw_fallback_is_capped (p : Audio.audio_path) :
  Audio.wave_open p = None
  \/ (exists wf, Audio.wave_open p = Some wf
                 /\ Audio.getsampwidth wf = 2%Z
                 /\ Nat.odd (List.length (Audio.readframes wf)) = true) ->
  Audio._load_audio p
  = option_map (fun raw => np.slice raw 0 960000) (Audio.fromfile_float32 p)
  /\ forall a, Audio._load_audio p = Some a -> (np.len a <= 960000)%Z.
Proof.
  intros H.
  assert (E : Audio._load_audio p
              = option_map (fun raw => np.slice raw 0 960000)
                           (Audio.fromfile_float32 p)).
  { unfold Audio._load_audio.
    destruct H as [H|(wf & H & Hw & Ho)]; rewrite H; simpl.
    - now destruct (Audio.fromfile_float32 p).
    - unfold Audio.read_wave. rewrite Hw. simpl.
      apply (proj1 (frombuffer_int16_parity _)) in Ho. rewrite Ho. simpl.
      now destruct (Audio.fromfile_float32 p). }
  split; [exact E|].
  intros a Ha. rewrite E in Ha.
  destruct (Audio.fromfile_float32 p) as [raw|]; [|discriminate].
  injection Ha as <-. unfold np.slice, np.len.
  pose proof (firstn_le_length (Z.to_nat (960000 - 0))
                               (skipn (Z.to_nat 0) raw)).
  lia.
Qed.

Lemma raw_fallback_is_capped_witness :
  Audio._load_audio truncated_wav
  = option_map (fun raw => np.slice raw 0 960000)
               (Audio.fromfile_float32 truncated_wav)
  /\ forall a, Audio._load_audio truncated_wav = Some a
               -> (np.len a <= 960000)%Z.
Proof.
  apply (raw_fallback_is_capped truncated_wav). right.
  eexists. repeat split; reflexivity.
Defined.

(** ** The spectral extractor *)


















(** ** Short waveforms *)

Lemma range0_length (stop step : Z) :
  List.length (np.range0 stop step) = Z.to_nat ((stop + step - 1) / step).
Proof. unfold np.range0. now rewrite length_map, length_seq. Qed.

Lemma temporal_short (audio : list R) :
  (np.len audio <= 320)%Z -> Audio._temporal_analysis audio = 0.3.
Proof.
  intros H. unfold Audio._temporal_analysis. cbv zeta.
  change (Audio.sample_rate / 100)%Z with 160%Z.
  set (energy := map _ _).
  assert (Hl : (np.len energy <= 1)%Z).
  { unfold np.len, energy. rewrite length_map, range0_length.
    assert ((np.len audio - 160 + 160 - 1) / 160 < 2)%Z
      by (apply Z.div_lt_upper_bound; lia).
    lia. }
  destruct (Z.gtb_spec (np.len energy) 1); [lia | reflexivity].
Qed.

Lemma frame_pitch_length (frame : list R) :
  (List.length (Audio.frame_pitch frame) <= 1)%nat.
Proof.
  unfold Audio.frame_pitch. cbv zeta.
  repeat match goal with
         | |- context [if ?c then _ else _] => destruct c
         end; simpl; lia.
Qed.

Lemma flat_map_length_le {A B : Type} (f : A -> list B) (l : list A) :
  (forall a, (List.length (f a) <= 1)%nat) ->
  (List.length (flat_map f l) <= List.length l)%nat.
Proof.
  intros H. induction l as [|a r IH]; simpl; [lia|].
  rewrite length_app. specialize (H a). lia.
Qed.

Lemma prosody_short (audio : list R) :
  (np.len audio <= 3200)%Z -> Audio._prosody_analysis audio = 0.3.
Proof.
  intros H. unfold Audio._prosody_analysis. cbv zeta.
  assert (Hl : (np.len (Audio.pitch_track audio) < 10)%Z).
  { unfold Audio.pitch_track. cbv zeta.
    change (Audio.sample_rate / 50)%Z with 320%Z.
    set (f := fun i : Z => _).
    pose proof (flat_map_length_le
                  f (np.range0 (np.len audio - 320) 320)
                  (fun i => frame_pitch_length _)) as Hf.
    rewrite range0_length in Hf.
    assert ((np.len audio - 320 + 320 - 1) / 320 < 10)%Z
      by (apply Z.div_lt_upper_bound; lia).
    unfold np.len at 1. lia. }
  destruct (Z.ltb_spec (np.len (Audio.pitch_track audio)) 10);
    [reflexivity | lia].
Qed.

Lemma voice_short (audio : list R) :
  (np.len audio < 64000)%Z -> Audio._voice_consistency_check audio = 0.3.
Proof.
  intros H. unfold Audio._voice_consistency_check. cbv zeta.
  change (Audio.sample_rate * 2)%Z with 32000%Z.
  assert (np.len audio / 32000 < 2)%Z
    by (apply Z.div_lt_upper_bound; lia).
  destruct (Z.ltb_spec (np.len audio / 32000) 2); [reflexivity | lia].
Qed.

(** X5: the fallbacks of short waveforms.  Up to 320 samples the temporal
    extractor has at most one energy frame, up to 3200 samples the prosody
    extractor has fewer than ten pitch estimates, and below 64000 samples
    the voice-consistency extractor has fewer than two segments: each
    returns 0.3.  A waveform of at most 320 samples therefore has an
    overall score of at most 0.51 and is never reported as a deepfake nor
    as a cloned voice. *)
Theorem short_waveform_fallbacks (audio : list R) :
  ((np.len audio < 64000)%Z ->
   Audio._voice_consistency_check audio = 0.3
   /\ Audio.is_voice_cloned (Audio.analyze_waveform audio) = false)
  /\ ((np.len audio <= 3200)%Z -> Audio._prosody_analysis audio = 0.3)
  /\ ((np.len audio <= 320)%Z ->
      Audio._temporal_analysis audio = 0.3
      /\ Audio.is_deepfake (Audio.analyze_waveform audio) = false
      /\ Audio.confidence (Audio.analyze_waveform audio) <= 0.51).
Proof.
  split; [|split].
  - intros H. pose proof (voice_short audio H) as Hv. split; [exact Hv|].
    unfold Audio.analyze_waveform. simpl. rewrite Hv.
    apply gtb_false. lra.
  - apply prosody_short.
  - intros H.
    pose proof (temporal_short audio H) as Ht.
    pose proof (prosody_short audio ltac:(lia)) as Hp.
    pose proof (voice_short audio ltac:(lia)) as Hv.
    pose proof (spectral_unit audio) as Hs.
    split; [exact Ht|].
    unfold Audio.analyze_waveform. simpl. rewrite Ht, Hp, Hv.
    unfold Audio.overall_score. split.
    + apply gtb_false. lra.
    + unfold Rmin. destruct (Rle_dec _ _); lra.
Qed.

Lemma short_waveform_fallbacks_witness :
  (Audio._voice_consistency_check short_waveform = 0.3
   /\ Audio.is_voice_cloned (Audio.analyze_waveform short_waveform) = false)
  /\ Audio._prosody_analysis short_waveform = 0.3
  /\ (Audio._temporal_analysis short_waveform = 0.3
      /\ Audio.is_deepfake (Audio.analyze_waveform short_waveform) = false
      /\ Audio.confidence (Audio.analyze_waveform short_waveform) <= 0.51).
Proof.
  destruct (short_waveform_fallbacks short_waveform) as (Hv & Hp & Ht).
  split; [|split].
  - apply Hv. reflexivity.
  - apply Hp. discriminate.
  - apply Ht. discriminate.
Defined.

(** ** Silence *)

Lemma diff_zeros (l : list R) : zeros l -> zeros (np.diff l).
Proof.
  induction 1 as [|x r Hx Hr IH]; [constructor|].
  destruct Hr as [|y r' Hy Hr']; [constructor|].
  change (np.diff (x :: y :: r')) with ((y - x) :: np.diff (y :: r')).
  constructor; [lra | exact IH].
Qed.

Lemma temporal_zeros (audio : list R) :
  zeros audio -> (320 < np.len audio)%Z ->
  Audio._temporal_analysis audio = 0.
Proof.
  intros Hz Hlen. unfold Audio._temporal_analysis. cbv zeta.
  change (Audio.sample_rate / 100)%Z with 160%Z.
  set (energy := map _ _).
  assert (He : zeros energy).
  { unfold energy. apply zeros_map. intros i _.
    unfold Audio.frame_energy. apply sum_zeros, zeros_map.
    intros x Hx. pose proof (zeros_slice audio i (i + 160) Hz) as Hs.
    rewrite Forall_forall in Hs. rewrite (Hs x Hx). unfold np.sq. lra. }
  assert (Hl : (1 < np.len energy)%Z).
  { unfold np.len, energy. rewrite length_map, range0_length.
    assert (2 <= (np.len audio - 160 + 160 - 1) / 160)%Z
      by (apply Z.div_le_lower_bound; lia).
    lia. }
  destruct (Z.gtb_spec (np.len energy) 1); [|lia].
  rewrite var_zeros, (mean_zeros energy He).
  - unfold Rdiv. rewrite Rmult_0_l. apply Rmin_right. lra.
  - apply zeros_map. intros x Hx.
    pose proof (diff_zeros energy He) as Hd.
    rewrite Forall_forall in Hd. rewrite (Hd x Hx). apply Rabs_R0.
Qed.

Lemma nth_zeros (l : list R) (n : nat) : zeros l -> nth n l 0 = 0.
Proof.
  intros H. destruct (nth_in_or_default n l 0) as [Hin|E]; [|exact E].
  rewrite Forall_forall in H. now apply H.
Qed.

Lemma max_from_zeros (l : list R) : zeros l -> np.max_from 0 l = 0.
Proof.
  induction 1 as [|x r Hx _ IH]; [reflexivity|].
  simpl. subst x. destruct (Rgt_dec 0 0); [lra | exact IH].
Qed.

Lemma max_zeros (l : list R) : zeros l -> np.max l = 0.
Proof.
  intros H. destruct H as [|x r Hx Hr]; [reflexivity|].
  simpl. subst x. now apply max_from_zeros.
Qed.

Lemma zeros_skipn (n : nat) (l : list R) : zeros l -> zeros (skipn n l).
Proof.
  intros H. rewrite <- (firstn_skipn n l) in H.
  now apply Forall_app in H as [_ H].
Qed.

Lemma frame_pitch_zeros (frame : list R) :
  zeros frame -> Audio.frame_pitch frame = [].
Proof.
  intros Hz. unfold Audio.frame_pitch. cbv zeta.
  set (full := Audio.correlate_full frame frame).
  assert (Hf : zeros full).
  { unfold full, Audio.correlate_full. apply zeros_map. intros j _.
    unfold Audio.correlate_at. apply sum_zeros, zeros_map. intros n _.
    cbv zeta. rewrite !(nth_zeros frame) by exact Hz. apply Rmult_0_r. }
  set (autocorr := skipn _ full).
  assert (Ha : zeros autocorr) by now apply zeros_skipn.
  destruct (np.len autocorr >? 20)%Z; [|reflexivity].
  rewrite (max_zeros (skipn 20 autocorr)) by now apply zeros_skipn.
  assert (E : gtb 0 0 = false) by (apply gtb_false; lra).
  rewrite E, andb_false_r. reflexivity.
Qed.

Lemma prosody_zeros (audio : list R) :
  zeros audio -> Audio._prosody_analysis audio = 0.3.
Proof.
  intros Hz. unfold Audio._prosody_analysis. cbv zeta.
  assert (E : Audio.pitch_track audio = []).
  { unfold Audio.pitch_track. cbv zeta.
    induction (np.range0 _ _) as [|i r IH]; [reflexivity|].
    simpl. rewrite IH, frame_pitch_zeros; [reflexivity|].
    now apply zeros_slice. }
  rewrite E. reflexivity.
Qed.

(** X6: what the audio detector reports on silence.  An all-zero waveform
    has spectral score 1 from two samples on, prosody score 0.3, temporal
    score 0 above 320 samples, and voice-consistency score 1 from 64000
    samples on and 0.3 below.  From four seconds on it is reported as a
    deepfake with a cloned voice and the label "voice_cloning", the
    weighted sum being 0.56; between 321 and 63999 samples the verdict is
    negative, the label is "synthesized_speech" and the weighted sum is
    0.42.  The confidence is that sum, computed here on real numbers. *)
Theorem silence_report (audio : list R) :
  zeros audio ->
  ((2 <= np.len audio)%Z -> Audio._spectral_analysis audio = 1)
  /\ Audio._prosody_analysis audio = 0.3
  /\ ((320 < np.len audio)%Z -> Audio._temporal_analysis audio = 0)
  /\ ((64000 <= np.len audio)%Z ->
      let r := Audio.analyze_waveform audio in
      Audio._voice_consistency_check audio = 1
      /\ Audio.is_deepfake r = true
      /\ Audio.is_voice_cloned r = true
      /\ Audio.manipulation_type r = "voice_cloning"%string
      /\ Audio.confidence r = 0.56)
  /\ ((320 < np.len audio < 64000)%Z ->
      let r := Audio.analyze_waveform audio in
      Audio._voice_consistency_check audio = 0.3
      /\ Audio.is_deepfake r = false
      /\ Audio.is_voice_cloned r = false
      /\ Audio.manipulation_type r = "synthesized_speech"%string
      /\ Audio.confidence r = 0.42).
Proof.
  intros Hz.
  pose proof (prosody_zeros audio Hz) as Hp.
  assert (Hspec : (2 <= np.len audio)%Z -> Audio._spectral_analysis audio = 1).
  { intros Hlen. now destruct (zero_waveform_spectrum audio Hz Hlen)
      as (_ & _ & Hs). }
  split; [exact Hspec|]. split; [exact Hp|].
  split; [now apply temporal_zeros|].
  split; intros Hlen; cbv zeta.
  - pose proof (Hspec ltac:(lia)) as Hs.
    pose proof (temporal_zeros audio Hz ltac:(lia)) as Ht.
    assert (Hv : Audio._voice_consistency_check audio = 1).
    { apply zero_waveform_voice; [exact Hz|].
      apply Z.div_le_lower_bound; lia. }
    split; [exact Hv|].
    unfold Audio.analyze_waveform. simpl.
    rewrite Hs, Ht, Hv, Hp.
    unfold Audio.overall_score, Audio._classify_audio_type.
    repeat split.
    + apply gtb_true. lra.
    + apply gtb_true. lra.
    + decide_cmp. reflexivity.
    + rewrite Rmin_right; lra.
  - pose proof (Hspec ltac:(lia)) as Hs.
    pose proof (temporal_zeros audio Hz ltac:(lia)) as Ht.
    pose proof (voice_short audio ltac:(lia)) as Hv.
    split; [exact Hv|].
    unfold Audio.analyze_waveform. simpl.
    rewrite Hs, Ht, Hv, Hp.
    unfold Audio.overall_score, Audio._classify_audio_type.
    repeat split.
    + apply gtb_false. lra.
    + apply gtb_false. lra.
    + decide_cmp. reflexivity.
    + rewrite Rmin_right; lra.
Qed.

Lemma silence_report_witness :
  Audio._spectral_analysis silent_5s = 1
  /\ Audio._prosody_analysis silent_5s = 0.3
  /\ Audio._temporal_analysis silent_5s = 0
  /\ Audio._voice_consistency_check silent_5s = 1
  /\ Audio.is_deepfake (Audio.analyze_waveform silent_5s) = true
  /\ Audio.is_voice_cloned (Audio.analyze_waveform silent_5s) = true
  /\ Audio.manipulation_type (Audio.analyze_waveform silent_5s)
     = "voice_cloning"%string
  /\ Audio.confidence (Audio.analyze_waveform silent_5s) = 0.56.
Proof.
  destruct (silence_report silent_5s (zeros_repeat _))
    as (Hs & Hp & Ht & Hlong & _).
  split; [apply Hs; rewrite silent_5s_len; lia|].
  split; [exact Hp|].
  split; [apply Ht; rewrite silent_5s_len; lia|].
  apply Hlong. rewrite silent_5s_len. lia.
Defined.

(** ** Labels, flags and explanations *)

Lemma voice_score_band (audio : list R) :
  Audio._voice_consistency_check audio <= 0.5
  \/ Audio._voice_consistency_check audio > 0.95.
Proof.
  unfold Audio._voice_consistency_check. cbv zeta.
  destruct (_ <? 2)%Z; [left; lra|].
  destruct (gtb (Audio.consistency_of audio) 0.95) eqn:E.
  - right. apply gtb_true in E. unfold Rmin.
    destruct (Rle_dec 1.0 (Audio.consistency_of audio)); lra.
  - left. apply gtb_false in E. unfold Rmax.
    destruct (Rle_dec 0.0 ((Audio.consistency_of audio - 0.7) * 2)); lra.
Qed.

(** X7: on every waveform the flag [is_voice_cloned] (voice consistency
    above 0.7) and the label "voice_cloning" (voice consistency above 0.75)
    agree, because the voice-consistency score never falls between 0.5 and
    0.95; both hold exactly when the score exceeds 0.95. *)
Theorem voice_cloned_flag_matches_label (audio : list R) :
  let r := Audio.analyze_waveform audio in
  (Audio.is_voice_cloned r = true
   <-> Audio.manipulation_type r = "voice_cloning"%string)
  /\ (Audio.is_voice_cloned r = true
      <-> Audio._voice_consistency_check audio > 0.95).
Proof.
  cbv zeta. unfold Audio.analyze_waveform. simpl.
  unfold Audio._classify_audio_type.
  destruct (voice_score_band audio) as [H|H].
  - assert (E1 : gtb (Audio._voice_consistency_check audio) 0.7 = false)
      by (apply gtb_false; lra).
    assert (E2 : gtb (Audio._voice_consistency_check audio) 0.75 = false)
      by (apply gtb_false; lra).
    rewrite E1, E2. split; split; intros Hx; try discriminate; try lra.
    destruct (gtb (Audio._spectral_analysis audio) 0.65);
      [discriminate|].
    destruct (_ || _)%bool; discriminate.
  - assert (E1 : gtb (Audio._voice_consistency_check audio) 0.7 = true)
      by (apply gtb_true; lra).
    assert (E2 : gtb (Audio._voice_consistency_check audio) 0.75 = true)
      by (apply gtb_true; lra).
    rewrite E1, E2. repeat split; auto.
Qed.


Ltac case_gtb x y :=
  let E := fresh "E" in
  destruct (gtb x y) eqn:E;
  [apply gtb_true in E | apply gtb_false in E].

(** X9: explanations.  A negative verdict always carries the fixed
    authentic sentence.  For images and videos a positive verdict always
    cites at least one sub-score: the generic sentence of the source is
    never produced, since the sub-scores cannot all stay under their
    explanation thresholds while the weighted sum exceeds the verdict
    threshold.  For audio the generic sentence is produced only when the
    prosody score, which no fragment cites, exceeds 0.45. *)
Theorem explanations_follow_verdicts :
  (forall spectral temporal voice prosody n,
      let r := Audio.fuse spectral temporal voice prosody n in
      (Audio.is_deepfake r = false ->
       Audio.report_explanation r
       = Sentence "Audio appears authentic with natural voice characteristics and normal speech patterns.")
      /\ (Audio.is_deepfake r = true ->
          (exists l, Audio.report_explanation r = Fragments l /\ l <> [])
          \/ (Audio.report_explanation r
              = Sentence "Voice manipulation or synthesis detected in audio analysis"
              /\ prosody > 0.45)))
  /\ (forall pixel frequency ai face meta dims fmt,
         let r := Image.fuse pixel frequency ai face meta dims fmt in
         (Image.is_deepfake r = false ->
          Image.report_explanation r
          = Sentence "Image appears authentic with no significant manipulation or AI generation detected.")
         /\ (Image.is_deepfake r = true ->
             exists l, Image.report_explanation r = Fragments l /\ l <> []))
  /\ (forall anomaly temporal compression analyzed flagged count fps,
         let r := Video.fuse anomaly temporal compression
                             analyzed flagged count fps in
         (Video.is_deepfake r = false ->
          Video.report_explanation r
          = Sentence "No significant signs of deepfake manipulation detected. The video appears authentic based on facial consistency, temporal analysis, and compression patterns.")
         /\ (Video.is_deepfake r = true ->
             exists l, Video.report_explanation r = Fragments l /\ l <> [])).
Proof.
  split; [|split].
  - intros s t v p n. cbv zeta. simpl.
    unfold Audio._generate_audio_explanation, Audio.overall_score.
    split; intros H; rewrite H; simpl; [reflexivity|].
    apply gtb_true in H.
    case_gtb v 0.65; case_gtb s 0.55; case_gtb t 0.55; simpl;
      try (left; eexists; split; [reflexivity | discriminate]).
    right. split; [reflexivity | lra].
  - intros px fr ai fc meta dims fmt. cbv zeta. simpl.
    unfold Image._generate_image_explanation, Image.overall_score.
    split; intros H; rewrite H; simpl; [reflexivity|].
    apply gtb_true in H.
    case_gtb ai 0.65; case_gtb fc 0.60; case_gtb px 0.55;
      case_gtb fr 0.55; simpl;
      try (eexists; split; [reflexivity | discriminate]).
    lra.
  - intros a t c fa fl cnt fps. cbv zeta. simpl.
    unfold Video._generate_explanation, Video.overall_score.
    split; intros H; rewrite H; simpl; [reflexivity|].
    apply gtb_true in H.
    case_gtb a 0.55; case_gtb t 0.3; case_gtb c 0.5; simpl;
      try (eexists; split; [reflexivity | discriminate]).
    lra.
Qed.

Lemma explanations_follow_verdicts_witness :
  Audio.report_explanation (Audio.fuse 0.5 0 0 0 16000)
  = Sentence "Audio appears authentic with natural voice characteristics and normal speech patterns."
  /\ ((exists l, Audio.report_explanation (Audio.fuse 0.5 0.5 0.6 1 16000)
                 = Fragments l /\ l <> [])
      \/ (Audio.report_explanation (Audio.fuse 0.5 0.5 0.6 1 16000)
          = Sentence "Voice manipulation or synthesis detected in audio analysis"
          /\ 1 > 0.45))
  /\ (exists l, Image.report_explanation
                  (Image.fuse 0.7 0.7 0.7 0.7
                     {| Image.suspicious := false; Image.indicators := [] |}
                     (64, 64)%Z None) = Fragments l /\ l <> [])
  /\ (exists l, Video.report_explanation
                  (Video.fuse 0.6 0.6 0.6 30 18 900 25) = Fragments l
                /\ l <> []).
Proof.
  destruct explanations_follow_verdicts as (Ha & Hi & Hv).
  split; [|split; [|split]].
  - apply (proj1 (Ha 0.5 0 0 0 16000%Z)).
    simpl. apply gtb_false. unfold Audio.overall_score. lra.
  - apply (proj2 (Ha 0.5 0.5 0.6 1 16000%Z)).
    simpl. apply gtb_true. unfold Audio.overall_score. lra.
  - apply (proj2 (Hi 0.7 0.7 0.7 0.7 _ _ _)).
    simpl. apply gtb_true. unfold Image.overall_score. lra.
  - apply (proj2 (Hv 0.6 0.6 0.6 30%Z 18%Z 900%Z 25)).
    simpl. apply gtb_true. unfold Video.overall_score. lra.
Defined.

(** ** The sampling loop of the video detector *)

Lemma ceil_div_succ (k s : Z) :
  (0 <= k)%Z -> (1 <= s)%Z ->
  ((k + 1 + s - 1) / s
   = (k + s - 1) / s + (if (k mod s =? 0)%Z then 1 else 0))%Z.
Proof.
  intros Hk Hs.
  pose proof (Z.div_mod k s ltac:(lia)) as Hd.
  pose proof (Z.mod_pos_bound k s ltac:(lia)) as Hm.
  destruct (Z.eqb_spec (k mod s) 0) as [E|E].
  - rewrite E in Hd.
    assert (E1 : ((k + s - 1) / s = k / s)%Z).
    { symmetry. apply (Z.div_unique _ _ _ (s - 1)); lia. }
    assert (E2 : ((k + 1 + s - 1) / s = k / s + 1)%Z).
    { symmetry. apply (Z.div_unique _ _ _ 0); lia. }
    lia.
  - assert (E1 : ((k + s - 1) / s = k / s + 1)%Z).
    { symmetry. apply (Z.div_unique _ _ _ (k mod s - 1)); lia. }
    assert (E2 : ((k + 1 + s - 1) / s = k / s + 1)%Z).
    { symmetry. apply (Z.div_unique _ _ _ (k mod s)); lia. }
    lia.
Qed.

(** The effect of the inner loop over the faces of one frame. *)
Lemma visit_faces_effect (faces : list Video.face_crop) :
  forall st,
    let st' := fold_left Video.visit_face faces st in
    Video.frame_idx st' = Video.frame_idx st
    /\ Video.prev_frame_gray st' = Video.prev_frame_gray st
    /\ Video.frames_analyzed st' = Video.frames_analyzed st
    /\ List.length (Video.anomaly_scores st')
       = (List.length (Video.anomaly_scores st) + List.length faces)%nat
    /\ List.length (Video.compression_artifacts st')
       = (List.length (Video.compression_artifacts st)
          + List.length faces)%nat
    /\ exists added,
         Video.face_inconsistencies st'
         = Video.face_inconsistencies st ++ added
         /\ (List.length added <= List.length faces)%nat
         /\ Forall (fun i => i = Video.frame_idx st) added.
Proof.
  induction faces as [|face faces IH]; intros st; cbv zeta.
  - simpl. repeat split; try lia. exists []. rewrite app_nil_r.
    repeat split; [simpl; lia | constructor].
  - simpl fold_left.
    destruct (IH (Video.visit_face st face))
      as (Hi & Hp & Hf & Ha & Hc & added & Hfl & Hal & Hall).
    rewrite Hi, Hp, Hf, Ha, Hc, Hfl.
    unfold Video.visit_face in *. simpl in *.
    rewrite !length_app. simpl.
    repeat split; try lia.
    destruct (gtb (Video._detect_artifacts face) 0.5).
    + exists (Video.frame_idx st :: added). rewrite <- app_assoc.
      repeat split; [simpl; lia | now constructor].
    + exists added. repeat split; [lia | exact Hall].
Qed.

(** The state after the loop, for any frames and any stride [s >= 1]. *)
Lemma run_loop_invariant (s : Z) (fs : list Video.frame) :
  (1 <= s)%Z ->
  let st := Video.run_loop s fs in
  Video.frame_idx st = np.len fs
  /\ Video.frames_analyzed st = ((np.len fs + s - 1) / s)%Z
  /\ (Video.prev_frame_gray st = None <-> fs = [])
  /\ List.length (Video.anomaly_scores st)
     = List.length (Video.compression_artifacts st)
  /\ (List.length (Video.anomaly_scores st)
      <= List.length (flat_map Video.detected_faces fs))%nat
  /\ (np.len (Video.face_inconsistencies st)
      <= np.len (Video.anomaly_scores st)
         + Z.max 0 (Video.frames_analyzed st - 1))%Z
  /\ Forall (fun i => (0 <= i < np.len fs)%Z /\ (i mod s = 0)%Z)
            (Video.face_inconsistencies st).
Proof.
  intros Hs. induction fs as [|fr fs IH] using rev_ind; cbv zeta.
  - unfold Video.run_loop, np.len. simpl.
    repeat split; try lia; try constructor.
    symmetry. apply Z.div_small. lia.
  - cbv zeta in IH. unfold Video.run_loop in *.
    rewrite fold_left_app. simpl fold_left.
    set (st := fold_left (Video.visit_frame s) fs Video.initial_state) in *.
    destruct IH as (Hi & Hf & Hp & Hl & Hle & Hc & Hall).
    assert (Hlen : np.len (fs ++ [fr]) = (np.len fs + 1)%Z).
    { unfold np.len. rewrite length_app. simpl. lia. }
    pose proof (len_nonneg fs) as Hn.
    rewrite flat_map_app, length_app. simpl flat_map.
    rewrite app_nil_r, Hlen.
    rewrite (ceil_div_succ (np.len fs) s Hn Hs).
    unfold Video.visit_frame. rewrite Hi.
    assert (Hnn : fs ++ [fr] <> []) by (now destruct fs).
    assert (Hwiden : forall i, ((0 <= i < np.len fs)%Z /\ (i mod s = 0)%Z)
                               -> (0 <= i < np.len fs + 1)%Z
                                  /\ (i mod s = 0)%Z) by (intros; lia).
    destruct (Z.eqb_spec (np.len fs mod s) 0) as [Em|Em].
    + unfold Video.visit_sampled.
      destruct (visit_faces_effect (Video.detected_faces fr) st)
        as (Hi' & Hp' & Hf' & Ha' & Hc' & added & Hfl & Hal & Hadd).
      cbv zeta in *.
      set (st' := fold_left Video.visit_face (Video.detected_faces fr) st)
        in *.
      simpl. rewrite Hi', Hf', Ha', Hc', Hfl, Hp', Hi, Hf.
      assert (Hall' : Forall (fun i => (0 <= i < np.len fs + 1)%Z
                                       /\ (i mod s = 0)%Z)
                             (Video.face_inconsistencies st ++ added)).
      { apply Forall_app. split.
        - eapply Forall_impl; [|exact Hall]. exact Hwiden.
        - eapply Forall_impl; [|exact Hadd]. simpl. intros i ->.
          rewrite Hi. lia. }
      assert (Hq : (0 <= (np.len fs + s - 1) / s)%Z)
        by (apply Z.div_pos; lia).
      repeat split; try lia; try congruence.
      * unfold np.len in *.
        destruct (Video.prev_frame_gray st) as [prev|] eqn:Eprev.
        -- assert (fs <> []).
           { intros Hfs. apply (proj2 Hp) in Hfs. congruence. }
           assert (Hq1 : (1 <= (Z.of_nat (List.length fs) + s - 1) / s)%Z).
           { apply Z.div_le_lower_bound; [lia|].
             destruct fs; [contradiction|]. simpl List.length. lia. }
           destruct (gtb _ 0.6); rewrite ?length_app in *; simpl; lia.
        -- rewrite ?length_app in *. lia.
      * destruct (Video.prev_frame_gray st) as [prev|] eqn:Eprev;
          [|exact Hall'].
        destruct (gtb _ 0.6); [|exact Hall'].
        apply Forall_app. split; [exact Hall'|].
        constructor; [lia | constructor].
    + simpl. rewrite Hf.
      repeat split; try lia; try congruence.
      * intros Hnone. apply Hp in Hnone. subst fs.
        unfold np.len in Em. simpl in Em. rewrite Z.mod_0_l in Em; lia.
      * eapply Forall_impl; [|exact Hall]. exact Hwiden.
Qed.

Lemma analyze_video_reports (p : Video.video_path) :
  Video.isOpened p = true ->
  Video.CAP_PROP_FRAME_COUNT p <> 0%Z ->
  Video.CAP_PROP_FPS p <> 0 ->
  exists r, Video.analyze_video p = Report r.
Proof.
  intros Ho Hc Hf. unfold Video.analyze_video. rewrite Ho. simpl negb.
  cbv iota.
  destruct (Z.eqb_spec (Video.CAP_PROP_FRAME_COUNT p) 0) as [E|_];
    [contradiction|].
  unfold eqb. destruct (Req_dec_T (Video.CAP_PROP_FPS p) 0) as [E|_];
    [contradiction|].
  simpl orb. cbv iota.
  destruct (Video.final_scores _) as [[a t] c]. eexists. reflexivity.
Qed.

Lemma stride_pos (p : Video.video_path) :
  (1 <= Z.max 1 (Video.CAP_PROP_FRAME_COUNT p / 30))%Z.
Proof. lia. Qed.

(** X10: how many frames are analysed.  With stride
    [s = max(1, frame_count // 30)] the loop analyses the frames whose
    index is a multiple of [s]: the rounded-up quotient of the number of
    frames read by [s].  At least one frame is analysed as soon as one is
    read.  When the capture delivers the [n] frames it announces, between 30
    and 59 frames are analysed for [n >= 30], and all [n] for [n < 30]. *)
Theorem frames_analyzed_count (p : Video.video_path) (r : Video.report) :
  Video.analyze_video p = Report r ->
  let n := np.len (Video.frames p) in
  let s := Z.max 1 (Video.CAP_PROP_FRAME_COUNT p / 30) in
  let analyzed := Video.details_frames_analyzed (Video.report_details r) in
  analyzed = ((n + s - 1) / s)%Z
  /\ ((1 <= n)%Z -> (1 <= analyzed)%Z)
  /\ (n = Video.CAP_PROP_FRAME_COUNT p -> (30 <= n)%Z ->
      (30 <= analyzed <= 59)%Z)
  /\ (n = Video.CAP_PROP_FRAME_COUNT p -> (n < 30)%Z -> analyzed = n).
Proof.
  intros H. apply video_report_fused in H. cbv zeta in H. subst r.
  cbv zeta. simpl Video.details_frames_analyzed.
  destruct (run_loop_invariant _ (Video.frames p) (stride_pos p))
    as (_ & Hf & _).
  cbv zeta in Hf. rewrite Hf.
  pose proof (len_nonneg (Video.frames p)) as Hn.
  set (n := np.len (Video.frames p)) in *.
  split; [reflexivity|]. split; [|split].
  - intros H1. apply Z.div_le_lower_bound; lia.
  - intros E H30. rewrite <- E.
    pose proof (Z.mul_div_le n 30 ltac:(lia)) as Hlo.
    pose proof (Z.mul_succ_div_gt n 30 ltac:(lia)) as Hhi.
    assert (Hq : (1 <= n / 30)%Z) by (apply Z.div_le_lower_bound; lia).
    replace (Z.max 1 (n / 30)) with (n / 30)%Z by lia.
    split.
    + apply Z.div_le_lower_bound; lia.
    + assert ((n + n / 30 - 1) / (n / 30) < 60)%Z
        by (apply Z.div_lt_upper_bound; lia).
      lia.
  - intros E H30. rewrite <- E.
    assert (Hq : (n / 30 = 0)%Z) by (apply Z.div_small; lia).
    rewrite Hq. change (Z.max 1 0) with 1%Z.
    rewrite Z.div_1_r. lia.
Qed.

Lemma frames_analyzed_count_witness :
  exists r,
    Video.analyze_video still_clip = Report r
    /\ Video.details_frames_analyzed (Video.report_details r) = 2%Z.
Proof.
  destruct (analyze_video_reports still_clip eq_refl) as [r Hr];
    [discriminate | simpl; lra |].
  exists r. split; [exact Hr|].
  destruct (frames_analyzed_count still_clip r Hr) as (_ & _ & _ & H).
  apply H; reflexivity.
Defined.

Lemma flat_map_nil {A B : Type} (f : A -> list B) (l : list A) :
  (forall a, In a l -> f a = []) -> flat_map f l = [].
Proof.
  induction l as [|a r IH]; intros H; [reflexivity|].
  simpl. rewrite (H a) by now left. apply IH. intros b Hb. apply H. now right.
Qed.

(** X11: the flag counter.  [face_inconsistencies] gets at most one entry
    per detected face and one per analysed frame after the first, every
    entry is the index of an analysed frame, and the reported
    temporal-inconsistency score is that count over the analysed frames: it
    is bounded by [(faces + analysed - 1) / analysed], not by 1. *)
Theorem flag_counter_bound (p : Video.video_path) (r : Video.report) :
  Video.analyze_video p = Report r ->
  let d := Video.report_details r in
  let faces := np.len (flat_map Video.detected_faces (Video.frames p)) in
  let analyzed := Video.details_frames_analyzed d in
  (0 <= Video.details_face_inconsistencies d
   <= faces + Z.max 0 (analyzed - 1))%Z
  /\ Video.temporal_inconsistency d
     = IZR (Video.details_face_inconsistencies d) / IZR (Z.max 1 analyzed)
  /\ Video.temporal_inconsistency d
     <= IZR (faces + Z.max 0 (analyzed - 1)) / IZR (Z.max 1 analyzed).
Proof.
  intros H. apply video_report_fused in H. cbv zeta in H. subst r.
  cbv zeta. simpl.
  destruct (run_loop_invariant _ (Video.frames p) (stride_pos p))
    as (_ & _ & _ & _ & Hle & Hc & _).
  cbv zeta in Hle, Hc.
  set (st := Video.run_loop _ _) in *.
  pose proof (len_nonneg (Video.face_inconsistencies st)) as H0.
  assert (Hb : (np.len (Video.face_inconsistencies st)
                <= np.len (flat_map Video.detected_faces (Video.frames p))
                   + Z.max 0 (Video.frames_analyzed st - 1))%Z).
  { unfold np.len in *. lia. }
  repeat split; try lia.
  apply Rmult_le_compat_r.
  - left. apply Rinv_0_lt_compat, IZR_lt. lia.
  - now apply IZR_le.
Qed.

Lemma flag_counter_bound_witness :
  exists r,
    Video.analyze_video group_clip = Report r
    /\ (0 <= Video.details_face_inconsistencies (Video.report_details r)
        <= np.len (flat_map Video.detected_faces (Video.frames group_clip))
           + Z.max 0 (Video.details_frames_analyzed (Video.report_details r)
                      - 1))%Z.
Proof.
  destruct (analyze_video_reports group_clip eq_refl) as [r Hr];
    [discriminate | simpl; lra |].
  exists r. split; [exact Hr|].
  apply (flag_counter_bound group_clip r Hr).
Defined.

(** X12: a video in which no face is detected is never reported as a
    deepfake.  The face-anomaly and compression scores take their fallback
    0.3, at most every analysed frame but the first is flagged, so the
    temporal-inconsistency score is below 1 and the overall score below
    0.545; the label is "none" or "lip_sync". *)
Theorem faceless_video_is_never_flagged
  (p : Video.video_path) (r : Video.report) :
  Video.analyze_video p = Report r ->
  (forall fr, In fr (Video.frames p) -> Video.detected_faces fr = []) ->
  let d := Video.report_details r in
  Video.anomaly_score d = 0.3
  /\ Video.details_compression_artifacts d = 0.3
  /\ 0 <= Video.temporal_inconsistency d < 1
  /\ Video.is_deepfake r = false
  /\ Video.confidence r < 0.545
  /\ (Video.manipulation_type r = "none"%string
      \/ Video.manipulation_type r = "lip_sync"%string).
Proof.
  intros H Hnf. apply video_report_fused in H. cbv zeta in H. subst r.
  destruct (run_loop_invariant _ (Video.frames p) (stride_pos p))
    as (_ & _ & _ & Hl & Hle & Hc & _).
  cbv zeta in Hl, Hle, Hc.
  set (st := Video.run_loop _ _) in *.
  rewrite (flat_map_nil _ _ Hnf) in Hle. simpl in Hle.
  assert (Ea : Video.anomaly_scores st = [])
    by (apply length_zero_iff_nil; lia).
  assert (Ec : Video.compression_artifacts st = [])
    by (apply length_zero_iff_nil; lia).
  rewrite Ea in Hc. change (np.len (@nil R)) with 0%Z in Hc.
  pose proof (len_nonneg (Video.face_inconsistencies st)) as H0.
  cbv zeta. simpl. rewrite Ea, Ec.
  set (t := IZR (np.len (Video.face_inconsistencies st))
            / IZR (Z.max 1 (Video.frames_analyzed st))).
  assert (Ht : 0 <= t < 1).
  { unfold t.
    assert (Hp : 0 < IZR (Z.max 1 (Video.frames_analyzed st)))
      by (apply IZR_lt; lia).
    split.
    - apply div_nonneg; [apply IZR_le; lia | exact Hp].
    - apply Rmult_lt_reg_r with (r := IZR (Z.max 1 (Video.frames_analyzed st)));
        [exact Hp|].
      unfold Rdiv. rewrite Rmult_assoc, Rinv_l by lra.
      rewrite Rmult_1_r, Rmult_1_l. apply IZR_lt. lia. }
  unfold Video.overall_score, Video._classify_manipulation.
  repeat split; try lra.
  - apply gtb_false. lra.
  - unfold Rmin. destruct (Rle_dec _ _); lra.
  - decide_cmp. simpl andb. cbv iota.
    case_gtb t 0.5; [right | left]; reflexivity.
Qed.

Lemma faceless_video_is_never_flagged_witness :
  exists r,
    Video.analyze_video still_clip = Report r
    /\ Video.is_deepfake r = false
    /\ Video.confidence r < 0.545.
Proof.
  destruct (analyze_video_reports still_clip eq_refl) as [r Hr];
    [discriminate | simpl; lra |].
  exists r. split; [exact Hr|].
  assert (Hnf : forall fr, In fr (Video.frames still_clip)
                           -> Video.detected_faces fr = []).
  { intros fr [<-|[<-|[]]]; reflexivity. }
  destruct (faceless_video_is_never_flagged still_clip r Hr Hnf)
    as (_ & _ & _ & Hd & Hc & _).
  split; assumption.
Defined.

(** X13: a capture that opens and announces frames but delivers none does
    not fail.  The loop body never runs, [max(1, frames_analyzed)] avoids
    the division by zero, and the report has zero analysed frames, the
    scores 0.3, 0 and 0.3, a negative verdict, the label "none" and
    confidence 0.195. *)
Theorem empty_capture_is_reported (p : Video.video_path) :
  Video.isOpened p = true ->
  Video.CAP_PROP_FRAME_COUNT p <> 0%Z ->
  Video.CAP_PROP_FPS p <> 0 ->
  Video.frames p = [] ->
  exists r,
    Video.analyze_video p = Report r
    /\ Video.details_frames_analyzed (Video.report_details r) = 0%Z
    /\ Video.anomaly_score (Video.report_details r) = 0.3
    /\ Video.temporal_inconsistency (Video.report_details r) = 0
    /\ Video.details_compression_artifacts (Video.report_details r) = 0.3
    /\ Video.is_deepfake r = false
    /\ Video.manipulation_type r = "none"%string
    /\ Video.confidence r = 0.195.
Proof.
  intros Ho Hc Hf He.
  destruct (analyze_video_reports p Ho Hc Hf) as [r Hr].
  exists r. split; [exact Hr|].
  apply video_report_fused in Hr. cbv zeta in Hr. subst r.
  rewrite He. unfold Video.run_loop. simpl.
  assert (Et : IZR (np.len (@nil Z)) / IZR (Z.max 1 0) = 0).
  { change (np.len (@nil Z)) with 0%Z. unfold Rdiv. apply Rmult_0_l. }
  rewrite Et. unfold Video.overall_score, Video._classify_manipulation.
  repeat split.
  - apply gtb_false. lra.
  - decide_cmp. reflexivity.
  - rewrite Rmin_right; lra.
Qed.

Lemma empty_capture_is_reported_witness :
  exists r,
    Video.analyze_video empty_capture = Report r
    /\ Video.details_frames_analyzed (Video.report_details r) = 0%Z
    /\ Video.anomaly_score (Video.report_details r) = 0.3
    /\ Video.temporal_inconsistency (Video.report_details r) = 0
    /\ Video.details_compression_artifacts (Video.report_details r) = 0.3
    /\ Video.is_deepfake r = false
    /\ Video.manipulation_type r = "none"%string
    /\ Video.confidence r = 0.195.
Proof.
  apply (empty_capture_is_reported empty_capture).
  - reflexivity.
  - discriminate.
  - simpl. lra.
  - reflexivity.
Defined.

(** ** Frame differences *)

Lemma abs_diff_sym (a : list R) :
  forall b, map (fun pc => Rabs (fst pc - snd pc)) (combine a b)
            = map (fun pc => Rabs (fst pc - snd pc)) (combine b a).
Proof.
  induction a as [|x a IH]; intros [|y b]; simpl; try reflexivity.
  rewrite IH. f_equal. apply Rabs_minus_sym.
Qed.

Lemma shape_neqb_refl (s : Z * Z) : Video.shape_neqb s s = false.
Proof. unfold Video.shape_neqb. now rewrite !Z.eqb_refl. Qed.

Lemma shape_neqb_true (s t : Z * Z) : s <> t -> Video.shape_neqb s t = true.
Proof.
  destruct s as [r c], t as [r' c']. unfold Video.shape_neqb. simpl.
  intros H.
  destruct (Z.eqb_spec r r') as [->|]; [|reflexivity].
  destruct (Z.eqb_spec c c') as [->|]; [|reflexivity].
  now contradiction H.
Qed.

(** The score computed once the current frame has the shape of the
    previous one. *)
Lemma temporal_body_unit (prev : list R) (curr : option (list R)) :
  0 <= try_except
         (c <- curr ;;
          diff <- Video.absdiff prev c ;;
          Some (Rmin 1.0 (np.mean diff / 50.0)))
         0.0 <= 1.
Proof.
  destruct curr as [c|]; simpl; [|lra].
  unfold Video.absdiff. destruct (_ =? _)%Z; simpl; [|lra].
  apply Rmin_unit, div_nonneg; [|lra].
  apply mean_nonneg, Forall_map, Forall_forall. intros x _. apply Rabs_pos.
Qed.

(** X14: the frame-to-frame score.  It lies in [0,1] for every pair of
    frames.  For two frames of one shape it does not depend on their order
    (for different shapes the current frame is first resized to the
    previous one, and nothing of the kind holds).  It is 0 for two identical
    non-empty frames, which are therefore never flagged, and it is 0 when
    the shapes differ and [cv2.resize] raises. *)
Theorem temporal_consistency_properties :
  (forall a b, 0 <= Video._compute_temporal_consistency a b <= 1)
  /\ (forall a b, Video.shape a = Video.shape b ->
                  Video._compute_temporal_consistency a b
                  = Video._compute_temporal_consistency b a)
  /\ (forall a, Video.pixels a <> [] ->
                Video._compute_temporal_consistency a a = 0
                /\ gtb (Video._compute_temporal_consistency a a) 0.6
                   = false)
  /\ (forall a b,
         Video.shape a <> Video.shape b ->
         Video.resize b (snd (Video.shape a), fst (Video.shape a)) = None ->
         Video._compute_temporal_consistency a b = 0).
Proof.
  split; [|split; [|split]].
  - intros a b. unfold Video._compute_temporal_consistency. cbv zeta.
    apply temporal_body_unit.
  - intros a b E. unfold Video._compute_temporal_consistency. cbv zeta.
    rewrite E, shape_neqb_refl. simpl. unfold Video.absdiff.
    rewrite (Z.eqb_sym (np.len (Video.pixels b))).
    destruct (_ =? _)%Z; [|reflexivity].
    simpl. now rewrite abs_diff_sym.
  - intros a _.
    assert (E : Video._compute_temporal_consistency a a = 0).
    { unfold Video._compute_temporal_consistency. cbv zeta.
      rewrite shape_neqb_refl. simpl. unfold Video.absdiff.
      rewrite Z.eqb_refl. simpl.
      rewrite mean_zeros.
      - unfold Rdiv. rewrite Rmult_0_l. apply Rmin_right. lra.
      - apply zeros_map. intros [x y] Hin. simpl.
        assert (x = y) as ->.
        { clear -Hin. induction (Video.pixels a) as [|z l IH];
            [destruct Hin|].
          simpl in Hin. destruct Hin as [Hin|Hin]; [congruence | auto]. }
        rewrite Rminus_diag. apply Rabs_R0. }
    split; [exact E|]. rewrite E. apply gtb_false. lra.
  - intros a b Hs Hr. unfold Video._compute_temporal_consistency. cbv zeta.
    rewrite (shape_neqb_true _ _ Hs), Hr. simpl. lra.
Qed.

Lemma temporal_consistency_properties_witness :
  Video._compute_temporal_consistency (uniform_gray 100 2 2)
                                      (uniform_gray 90 2 2)
  = Video._compute_temporal_consistency (uniform_gray 90 2 2)
                                        (uniform_gray 100 2 2)
  /\ Video._compute_temporal_consistency (uniform_gray 100 2 2)
                                         (uniform_gray 100 2 2) = 0
  /\ Video._compute_temporal_consistency (uniform_gray 100 0 0)
                                         (uniform_gray 100 2 2) = 0.
Proof.
  destruct temporal_consistency_properties as (_ & Hsym & Hsame & Hraise).
  split; [|split].
  - apply Hsym. reflexivity.
  - apply Hsame. discriminate.
  - apply Hraise; [discriminate | reflexivity].
Defined.

(** ** Image metadata *)

Lemma prefix_app (n s : string) :
  String.prefix n s = true <-> exists post, s = (n ++ post)%string.
Proof.
  revert s. induction n as [|c n IH]; intros s.
  - split; [intros _; now exists s | intros _; now destruct s].
  - destruct s as [|d s]; simpl.
    + split; [discriminate | intros [post H]; discriminate].
    + destruct (Ascii.ascii_dec c d) as [->|Hne].
      * rewrite IH. split; intros [post H]; exists post.
        -- now rewrite H.
        -- now injection H.
      * split; [discriminate|]. intros [post H]. injection H. congruence.
Qed.

(** [contains] is the substring test of Python's [in]. *)
Lemma contains_substring (n s : string) :
  Image.contains n s = true
  <-> exists pre post, s = (pre ++ n ++ post)%string.
Proof.
  induction s as [|d s IH].
  - unfold Image.contains. rewrite orb_false_r, prefix_app. split.
    + intros [post H]. now exists ""%string, post.
    + intros (pre & post & H). destruct pre as [|c pre]; [|discriminate].
      now exists post.
  - change (Image.contains n (String d s))
      with (String.prefix n (String d s) || Image.contains n s)%bool.
    rewrite orb_true_iff, prefix_app, IH. split.
    + intros [[post H]|(pre & post & H)].
      * now exists ""%string, post.
      * exists (String d pre), post. simpl. now rewrite H.
    + intros (pre & post & H). destruct pre as [|c pre].
      * left. now exists post.
      * right. simpl in H. injection H as _ H. now exists pre, post.
Qed.

(** X15: when the metadata is flagged.  With readable EXIF data the image
    is suspicious exactly when it has fewer than three tags or when the
    Make (271) or Software (305) tag, lower-cased, contains one of the
    generator names as a substring.  When reading the metadata raises, the
    image is not suspicious and has no indicator. *)
Theorem metadata_suspicious_iff (p : Image.image_path) :
  (Image.getexif p = None ->
   Image.suspicious (Image._metadata_analysis p) = false
   /\ Image.indicators (Image._metadata_analysis p) = [])
  /\ (forall exif_data,
         Image.getexif p = Some exif_data ->
         (Image.suspicious (Image._metadata_analysis p) = true
          <-> (np.len exif_data < 3)%Z
              \/ exists tag value tool pre post,
                   (tag = 271%Z \/ tag = 305%Z)
                   /\ Image.lookup tag exif_data = Some value
                   /\ In tool ["dalle"; "midjourney"; "stable"; "gan";
                               "diffusion"]%string
                   /\ Image.lower value = (pre ++ tool ++ post)%string)).
Proof.
  split.
  - intros H. unfold Image._metadata_analysis. rewrite H. now split.
  - intros exif H. unfold Image._metadata_analysis. rewrite H.
    cbv zeta. cbn [Image.suspicious]. unfold Image.software_tags.
    set (hit := fun tag : Z =>
                  match Image.lookup tag exif with
                  | Some value =>
                      existsb (fun ai_tool =>
                                 Image.contains ai_tool (Image.lower value))
                              Image.ai_tools
                  | None => false
                  end).
    assert (Hhit : forall tag,
               hit tag = true
               <-> exists value tool pre post,
                     Image.lookup tag exif = Some value
                     /\ In tool Image.ai_tools
                     /\ Image.lower value = (pre ++ tool ++ post)%string).
    { intros tag. unfold hit.
      destruct (Image.lookup tag exif) as [value|].
      - rewrite existsb_exists. split.
        + intros (tool & Hin & Hc). apply contains_substring in Hc.
          destruct Hc as (pre & post & Hc). now exists value, tool, pre, post.
        + intros (v & tool & pre & post & Hv & Hin & Hc).
          injection Hv as <-. exists tool. split; [exact Hin|].
          apply contains_substring. now exists pre, post.
      - split; [discriminate|]. intros (v & _ & _ & _ & Hv & _).
        discriminate. }
    rewrite orb_true_iff, Z.ltb_lt, negb_true_iff, Z.eqb_neq.
    assert (Hlen : np.len (filter hit [271; 305]%Z) <> 0%Z
                   <-> hit 271%Z = true \/ hit 305%Z = true).
    { simpl. destruct (hit 271%Z), (hit 305%Z); unfold np.len; simpl;
        split; intros; try lia; try tauto; intuition discriminate. }
    rewrite Hlen, !Hhit. split.
    + intros [Hl|[Hh|Hh]]; [now left | right | right];
        destruct Hh as (v & tool & pre & post & Hv & Hin & Hc).
      * exists 271%Z, v, tool, pre, post. auto.
      * exists 305%Z, v, tool, pre, post. auto.
    + intros [Hl|(tag & v & tool & pre & post & [->| ->] & Hv & Hin & Hc)].
      * now left.
      * right. left. now exists v, tool, pre, post.
      * right. right. now exists v, tool, pre, post.
Qed.

Lemma metadata_suspicious_iff_witness :
  (Image.suspicious (Image._metadata_analysis unreadable_image) = false
   /\ Image.indicators (Image._metadata_analysis unreadable_image) = [])
  /\ (Image.suspicious (Image._metadata_analysis gray_image) = true
      <-> (np.len (@nil (Z * string)) < 3)%Z
          \/ exists tag value tool pre post,
               (tag = 271%Z \/ tag = 305%Z)
               /\ Image.lookup tag [] = Some value
               /\ In tool ["dalle"; "midjourney"; "stable"; "gan";
                           "diffusion"]%string
               /\ Image.lower value = (pre ++ tool ++ post)%string).
Proof.
  split.
  - apply (proj1 (metadata_suspicious_iff unreadable_image)). reflexivity.
  - apply (proj2 (metadata_suspicious_iff gray_image)). reflexivity.
Defined.

(** ** Score bounds of the reports *)

(** X16: every audio report is bounded.  Whatever the file, when [analyze]
    returns a report its four sub-scores and their weighted sum lie in
    [0,1] and the confidence lies in [0, 0.98]. *)
Theorem audio_report_is_bounded (p : Audio.audio_path) (r : Audio.report) :
  Audio.analyze p = Report r ->
  let d := Audio.report_details r in
  0 <= Audio.spectral_anomaly_score d <= 1
  /\ 0 <= Audio.temporal_anomaly_score d <= 1
  /\ 0 <= Audio.voice_consistency_score d <= 1
  /\ 0 <= Audio.prosody_score d <= 1
  /\ 0 <= Audio.overall_score (Audio.spectral_anomaly_score d)
                              (Audio.temporal_anomaly_score d)
                              (Audio.voice_consistency_score d)
                              (Audio.prosody_score d) <= 1
  /\ 0 <= Audio.confidence r <= 0.98.
Proof.
  intros H. unfold Audio.analyze in H.
  destruct (Audio._load_audio p) as [a|]; [|discriminate].
  destruct (Z.eqb_spec (np.len a) 0) as [E|E]; [discriminate|].
  injection H as <-.
  pose proof (spectral_unit a). pose proof (temporal_unit a).
  pose proof (voice_unit a). pose proof (prosody_unit a).
  cbv zeta. unfold Audio.analyze_waveform. simpl.
  unfold Audio.overall_score.
  repeat split; try lra;
    try (unfold Rmin; destruct (Rle_dec _ _); lra).
Qed.

Lemma audio_report_is_bounded_witness :
  0 <= Audio.overall_score
         (Audio._spectral_analysis short_waveform)
         (Audio._temporal_analysis short_waveform)
         (Audio._voice_consistency_check short_waveform)
         (Audio._prosody_analysis short_waveform) <= 1
  /\ 0 <= Audio.confidence (Audio.analyze_waveform short_waveform) <= 0.98.
Proof.
  assert (H : Audio.analyze short_wav
              = Report (Audio.analyze_waveform short_waveform))
    by reflexivity.
  destruct (audio_report_is_bounded short_wav _ H)
    as (_ & _ & _ & _ & Ho & Hc).
  split; assumption.
Defined.

Lemma gray_image_measured : image_measured gray_image_np.
Proof.
  unfold image_measured, gray_image_np, nonneg_if_measured. simpl.
  repeat split; try lra.
  - repeat (constructor; [lra|]). constructor.
  - constructor.
Qed.

(** X17: every image report is bounded.  With measurements as OpenCV and
    numpy deliver them (non-negative variances and discontinuities, an edge
    density between 0 and 1), the four sub-scores and their weighted sum
    lie in [0,1] and the confidence lies in [0, 0.98]. *)
Theorem image_report_is_bounded (p : Image.image_path) (r : Image.report) :
  Image.analyze p = Report r ->
  (forall im, Image.open_ p = inr im -> image_measured im) ->
  let d := Image.report_details r in
  0 <= Image.pixel_analysis_score d <= 1
  /\ 0 <= Image.frequency_analysis_score d <= 1
  /\ 0 <= Image.ai_generated_score d <= 1
  /\ 0 <= Image.face_manipulation_score d <= 1
  /\ 0 <= Image.overall_score (Image.pixel_analysis_score d)
                              (Image.frequency_analysis_score d)
                              (Image.ai_generated_score d)
                              (Image.face_manipulation_score d) <= 1
  /\ 0 <= Image.confidence r <= 0.98.
Proof.
  intros H Hm. apply image_report_fused in H as (im & Ho & ->).
  specialize (Hm im Ho).
  pose proof (pixel_unit im Hm). pose proof (frequency_unit im).
  pose proof (ai_generated_unit im Hm). pose proof (face_check_unit im Hm).
  cbv zeta. simpl. unfold Image.overall_score.
  repeat split; try lra; unfold Rmin; destruct (Rle_dec _ _); lra.
Qed.

Lemma image_report_is_bounded_witness :
  exists r,
    Image.analyze gray_image = Report r
    /\ 0 <= Image.confidence r <= 0.98.
Proof.
  eexists. split; [reflexivity|].
  refine (proj2 (proj2 (proj2 (proj2 (proj2
            (image_report_is_bounded gray_image _ eq_refl _)))))).
  intros im H. injection H as <-. exact gray_image_measured.
Defined.

(** X18: what is bounded in a video report.  The face-anomaly and
    compression sub-scores lie in [0,1] whatever OpenCV measures, the
    temporal-inconsistency score is non-negative, and the confidence lies
    in [0, 0.98]. *)
Theorem video_report_is_bounded (p : Video.video_path) (r : Video.report) :
  Video.analyze_video p = Report r ->
  let d := Video.report_details r in
  0 <= Video.anomaly_score d <= 1
  /\ 0 <= Video.details_compression_artifacts d <= 1
  /\ 0 <= Video.temporal_inconsistency d
  /\ 0 <= Video.confidence r <= 0.98.
Proof.
  intros H. apply video_report_fused in H. cbv zeta in H. subst r.
  set (st := Video.run_loop _ _).
  destruct (run_loop_scores
              (Z.max 1 (Video.CAP_PROP_FRAME_COUNT p / 30)) (Video.frames p))
    as [Ha Hc]. fold st in Ha, Hc.
  cbv zeta. simpl.
  assert (Ba : 0 <= match Video.anomaly_scores st with
                    | [] => 0.3
                    | _ => np.mean (Video.anomaly_scores st)
                    end <= 1).
  { destruct (Video.anomaly_scores st); [lra | now apply mean_unit]. }
  assert (Bc : 0 <= match Video.compression_artifacts st with
                    | [] => 0.3
                    | _ => np.mean (Video.compression_artifacts st)
                    end <= 1).
  { destruct (Video.compression_artifacts st); [lra | now apply mean_unit]. }
  assert (Bt : 0 <= IZR (np.len (Video.face_inconsistencies st))
                    / IZR (Z.max 1 (Video.frames_analyzed st))).
  { apply div_nonneg.
    - apply IZR_le, len_nonneg.
    - apply IZR_lt. lia. }
  unfold Video.overall_score.
  repeat split; try lra; unfold Rmin; destruct (Rle_dec _ _); lra.
Qed.

Lemma video_report_is_bounded_witness :
  exists r,
    Video.analyze_video group_clip = Report r
    /\ 0 <= Video.confidence r <= 0.98.
Proof.
  destruct (analyze_video_reports group_clip eq_refl) as [r Hr];
    [discriminate | simpl; lra |].
  exists r. split; [exact Hr|].
  apply (video_report_is_bounded group_clip r Hr).
Defined.

(** ** Polarity *)

Lemma slice_map {A B : Type} (f : A -> B) (a : list A) (s e : Z) :
  np.slice (map f a) s e = map f (np.slice a s e).
Proof. unfold np.slice. now rewrite skipn_map, firstn_map. Qed.

Lemma len_map {A B : Type} (f : A -> B) (a : list A) :
  np.len (map f a) = np.len a.
Proof. unfold np.len. now rewrite length_map. Qed.

Lemma sum_opp (l : list R) : np.sum (map Ropp l) = - np.sum l.
Proof. induction l as [|x r IH]; simpl; [lra | rewrite IH; lra]. Qed.

Lemma mean_opp (l : list R) : np.mean (map Ropp l) = - np.mean l.
Proof. unfold np.mean. rewrite sum_opp, len_map. lra. Qed.

Lemma sq_opp (l : list R) : map np.sq (map Ropp l) = map np.sq l.
Proof.
  rewrite map_map. apply map_ext. intros x. unfold np.sq. lra.
Qed.

Lemma var_opp (l : list R) : np.var (map Ropp l) = np.var l.
Proof.
  unfold np.var. rewrite map_map, mean_opp. f_equal.
  apply map_ext. intros x.
  replace (- x - - np.mean l) with (- (x - np.mean l)) by lra.
  now rewrite Rabs_Ropp.
Qed.

Lemma std_opp (l : list R) : np.std (map Ropp l) = np.std l.
Proof. unfold np.std. now rewrite var_opp. Qed.

Lemma nth_opp (l : list R) : forall n, nth n (map Ropp l) 0 = - nth n l 0.
Proof.
  induction l as [|x r IH]; intros [|n]; simpl; try lra. apply IH.
Qed.

Lemma combine_map_r {A : Type} (f : R -> R) (a : list R) :
  forall idx : list A,
    combine idx (map f a) = map (fun p => (fst p, f (snd p))) (combine idx a).
Proof.
  induction a as [|x r IH]; intros [|i idx]; simpl; try reflexivity.
  now rewrite IH.
Qed.

Lemma weighted_opp (g : nat -> R) (l : list (nat * R)) :
  np.sum (map (fun jx => snd jx * g (fst jx))
              (map (fun p => (fst p, - snd p)) l))
  = - np.sum (map (fun jx => snd jx * g (fst jx)) l).
Proof.
  induction l as [|[j x] r IH]; simpl; [lra | rewrite IH; lra].
Qed.

Lemma cabs_fft_opp (audio : list R) (k : nat) :
  Audio.cabs (Audio.fft_bin (map Ropp audio) k)
  = Audio.cabs (Audio.fft_bin audio k).
Proof.
  unfold Audio.fft_bin, Audio.cabs. cbv zeta. simpl fst. simpl snd.
  rewrite len_map, length_map, combine_map_r.
  rewrite (weighted_opp
             (fun j => cos (2 * PI * INR k * INR j / IZR (np.len audio)))),
          (weighted_opp
             (fun j => sin (2 * PI * INR k * INR j / IZR (np.len audio)))).
  f_equal. lra.
Qed.

Lemma magnitude_opp (audio : list R) :
  Audio.magnitude (map Ropp audio) = Audio.magnitude audio.
Proof.
  unfold Audio.magnitude. cbv zeta.
  assert (E : map Audio.cabs (Audio.fft (map Ropp audio))
              = map Audio.cabs (Audio.fft audio)).
  { unfold Audio.fft. rewrite !map_map, length_map.
    apply map_ext. intros k. apply cabs_fft_opp. }
  assert (El : np.len (Audio.fft (map Ropp audio))
               = np.len (Audio.fft audio)).
  { unfold np.len, Audio.fft.
    now rewrite ?length_map, ?length_seq, ?length_map. }
  now rewrite E, El.
Qed.

Lemma spectral_opp (audio : list R) :
  Audio._spectral_analysis (map Ropp audio) = Audio._spectral_analysis audio.
Proof.
  unfold Audio._spectral_analysis, Audio.spectral_body. cbv zeta.
  rewrite magnitude_opp. unfold Audio.freqs. now rewrite len_map.
Qed.

Lemma temporal_opp (audio : list R) :
  Audio._temporal_analysis (map Ropp audio) = Audio._temporal_analysis audio.
Proof.
  unfold Audio._temporal_analysis. cbv zeta.
  rewrite !(len_map Ropp audio).
  set (fl := (Audio.sample_rate / 100)%Z).
  set (idx := np.range0 _ fl).
  assert (Em : map (Audio.frame_energy (map Ropp audio) fl) idx
               = map (Audio.frame_energy audio fl) idx).
  { apply map_ext. intros i. unfold Audio.frame_energy.
    now rewrite slice_map, sq_opp. }
  now rewrite Em.
Qed.

Lemma whole_segments_opp (audio : list R) :
  whole_segments (map Ropp audio) = map (map Ropp) (whole_segments audio).
Proof.
  unfold whole_segments. rewrite (len_map Ropp audio), map_map.
  apply map_ext. intros i. apply slice_map.
Qed.

Lemma consistency_opp (audio : list R) :
  Audio.consistency_of (map Ropp audio) = Audio.consistency_of audio.
Proof.
  rewrite !consistency_agrees.
  unfold spec_consistency, cross_segment_deviation. cbv zeta.
  rewrite whole_segments_opp, !map_map.
  set (segs := whole_segments audio).
  assert (E1 : map (fun s => np.mean (map Ropp s)) segs
               = map Ropp (map np.mean segs)).
  { rewrite map_map. apply map_ext. intros s. apply mean_opp. }
  assert (E2 : map (fun s => np.std (map Ropp s)) segs = map np.std segs).
  { apply map_ext. intros s. apply std_opp. }
  assert (E3 : map (fun s => np.mean (map np.sq (map Ropp s))) segs
               = map (fun s => np.mean (map np.sq s)) segs).
  { apply map_ext. intros s. now rewrite sq_opp. }
  now rewrite E1, E2, E3, std_opp.
Qed.

Lemma voice_opp (audio : list R) :
  Audio._voice_consistency_check (map Ropp audio)
  = Audio._voice_consistency_check audio.
Proof.
  unfold Audio._voice_consistency_check. cbv zeta.
  now rewrite !(len_map Ropp audio), consistency_opp.
Qed.

Lemma correlate_opp (frame : list R) :
  Audio.correlate_full (map Ropp frame) (map Ropp frame)
  = Audio.correlate_full frame frame.
Proof.
  unfold Audio.correlate_full. rewrite !(len_map Ropp frame).
  apply map_ext. intros j. unfold Audio.correlate_at.
  rewrite ?(len_map Ropp frame), length_map. f_equal.
  apply map_ext. intros n.
  cbv zeta. rewrite !nth_opp.
  destruct (_ && _)%bool; lra.
Qed.

Lemma frame_pitch_opp (frame : list R) :
  Audio.frame_pitch (map Ropp frame) = Audio.frame_pitch frame.
Proof. unfold Audio.frame_pitch. now rewrite correlate_opp. Qed.

Lemma prosody_opp (audio : list R) :
  Audio._prosody_analysis (map Ropp audio) = Audio._prosody_analysis audio.
Proof.
  unfold Audio._prosody_analysis. cbv zeta.
  assert (E : Audio.pitch_track (map Ropp audio) = Audio.pitch_track audio).
  { unfold Audio.pitch_track. cbv zeta. rewrite !(len_map Ropp audio).
    induction (np.range0 _ _) as [|i r IH]; [reflexivity|].
    simpl. now rewrite IH, slice_map, frame_pitch_opp. }
  now rewrite E.
Qed.

(** X19: polarity.  Inverting the sign of every sample changes nothing:
    the four extractors return the same scores, so the whole report
    (verdict, confidence, label, details and explanation) is the same. *)
Theorem polarity_inversion_is_invisible (audio : list R) :
  Audio.analyze_waveform (map Ropp audio) = Audio.analyze_waveform audio.
Proof.
  unfold Audio.analyze_waveform.
  now rewrite spectral_opp, temporal_opp, voice_opp, prosody_opp,
    (len_map Ropp audio).
Qed.
